(** * The conversational retrieval pipeline of the chatbot backend

    A shallow embedding of [backend/api/routes_chat.py],
    [backend/rag/chains.py], [backend/rag/retriever.py] and the two provider
    modules [backend/services/llm_gemini.py] and
    [backend/services/llm_fireworks.py], with the properties the design
    document states about them. *)

From stdpp Require Import gmap strings list fin_maps.

(** ** Python strings

    A Python [str] is a sequence of Unicode code points.  Slicing, [strip],
    [join] and [in] all work on code points, so a string is a list of them. *)

Abbreviation char := N.
Abbreviation pystr := (list N).

(** A literal whose characters are all ASCII. *)
Definition str (s : string) : pystr :=
  map Ascii.N_of_ascii (String.list_ascii_of_string s).

Definition LF : char := 10%N.
Definition DQUOTE : char := 34%N.
(** U+2019, the right single quotation mark, and U+2014, the em dash. *)
Definition RSQUO : char := 8217%N.
Definition EMDASH : char := 8212%N.

(** [str.isspace] on one character: the characters [str.strip()] removes. *)
Definition py_isspace (c : char) : bool :=
  ((9 <=? c) && (c <=? 13) || (28 <=? c) && (c <=? 32)
   || (c =? 133) || (c =? 160) || (c =? 5760)
   || (8192 <=? c) && (c <=? 8202)
   || (c =? 8232) || (c =? 8233) || (c =? 8239) || (c =? 8287)
   || (c =? 12288))%N.

Fixpoint lstrip (s : pystr) : pystr :=
  match s with
  | c :: s' => if py_isspace c then lstrip s' else s
  | [] => []
  end.

Definition rstrip (s : pystr) : pystr := rev (lstrip (rev s)).

(** [s.strip()] *)
Definition strip (s : pystr) : pystr := rstrip (lstrip s).

(** [sep.join(parts)] *)
Fixpoint join (sep : pystr) (parts : list pystr) : pystr :=
  match parts with
  | [] => []
  | p :: rest =>
      match rest with
      | [] => p
      | _ :: _ => p ++ sep ++ join sep rest
      end
  end.

(** [p in t] on strings: [p] occurs in [t] as a contiguous run. *)
Fixpoint starts_with (p t : pystr) : bool :=
  match p, t with
  | [], _ => true
  | a :: p', b :: t' => (a =? b)%N && starts_with p' t'
  | _ :: _, [] => false
  end.

Fixpoint py_in (p t : pystr) : bool :=
  starts_with p t ||
  match t with
  | [] => false
  | _ :: t' => py_in p t'
  end.

(** [x or d] for an optional string [x]: [None] and the empty string are
    falsy. *)
Definition py_or (x : option pystr) (d : pystr) : pystr :=
  match x with
  | Some (c :: s) => c :: s
  | Some [] | None => d
  end.

(** The same for a [str] that cannot be [None]. *)
Definition str_or (x d : pystr) : pystr :=
  match x with
  | [] => d
  | _ :: _ => x
  end.

(** ** Documents and the context assembler *)

Record Document := mkDocument {
  page_content : pystr;
  metadata : list (pystr * pystr)
}.

(** chains.py, [_join_docs]: ["\n\n".join(d.page_content for d in docs)] *)
Definition _join_docs (docs : list Document) : pystr :=
  join [LF; LF] (map page_content docs).

(** ** Messages, answers, exceptions *)

Inductive Role := System | Human | AI.

Record Message := mkMessage { role : Role; content : pystr }.

(** The dict [{"answer": text}] every chain and [/chat] return. *)
Record Answer := mkAnswer { answer : pystr }.

(** An instance of [Exception]: its class name, what [str(e)] gives and
    what [traceback.format_exc()] renders for it. *)
Record PyException := mkException {
  exc_class : pystr;
  exc_str : pystr;
  exc_trace : pystr
}.

(** A call either returns a value or raises. *)
Inductive Outcome (A : Type) :=
| Return (a : A)
| Raise (e : PyException).
Arguments Return {A} a.
Arguments Raise {A} e.

(** ** The process state *)

Inductive Provider := Gemini | Fireworks.

(** A constructed chat model: the identity of the object and its class. *)
Record ChatModel := mkChatModel { model_id : nat; model_provider : Provider }.

(** The calls the state keeps a record of: a provider constructor that
    built an object, a similarity search, a generation request.  Opening
    the vector store and loading the embedding model are not recorded. *)
Inductive Event :=
| Constructed (m : ChatModel)
| Retrieved (query : pystr)
| Generated (m : ChatModel) (prompt : list Message).

(** [_histories] is the module-level dict of routes_chat.py; an
    [InMemoryChatMessageHistory] is reachable only through its entry there,
    so the entry's key stands for the object and the entry's value is its
    [messages] list.  [fireworks_cache] is the [lru_cache] slot of
    llm_fireworks.get_llm, [next_id] numbers the objects built so far and
    [calls] records the outgoing calls in order. *)
Record State := mkState {
  _histories : gmap pystr (list Message);
  fireworks_cache : option ChatModel;
  next_id : nat;
  calls : list Event
}.

Definition set_histories (h : gmap pystr (list Message)) (st : State) : State :=
  mkState h (fireworks_cache st) (next_id st) (calls st).

Definition set_fireworks_cache (c : option ChatModel) (st : State) : State :=
  mkState (_histories st) c (next_id st) (calls st).

Definition record_call (ev : Event) (st : State) : State :=
  mkState (_histories st) (fireworks_cache st) (next_id st) (calls st ++ [ev]).

(** A process that has just started. *)
Definition fresh : State := mkState ∅ None 0 [].

(** What lies outside the repository, as one request meets it: the
    interpreter's [str.lower], whether the settings and constructor of each
    provider succeed, whether the vector store opens, what the similarity
    search (threshold already applied) returns and what each provider
    generates for a prompt. *)
Record Env := mkEnv {
  str_lower : pystr → pystr;
  new_gemini : Outcome unit;
  new_fireworks : Outcome unit;
  open_store : Outcome unit;
  search : pystr → Outcome (list Document);
  generate : Provider → list Message → Outcome pystr
}.

(** ** Computations: state passing with exceptions

    An exception leaves the state as it was when it was raised. *)

Definition M (A : Type) : Type := State → Outcome A * State.

Definition ret {A} (a : A) : M A := fun st => (Return a, st).

Definition raise {A} (e : PyException) : M A := fun st => (Raise e, st).

Definition bind {A B} (c : M A) (k : A → M B) : M B := fun st =>
  match c st with
  | (Return a, st') => k a st'
  | (Raise e, st') => (Raise e, st')
  end.

(** [try: body  except Exception as e: handler] *)
Definition try_except {A} (body : M A) (handler : PyException → M A) : M A :=
  fun st =>
    match body st with
    | (Return a, st') => (Return a, st')
    | (Raise e, st') => handler e st'
    end.

Declare Scope chat_scope.
Delimit Scope chat_scope with chat.
Notation "x <- c ;; k" := (bind c (fun x => k))
  (at level 100, c at next level, right associativity) : chat_scope.
Local Open Scope chat_scope.

(** ** backend/services: the two providers *)

(** Running a provider's [Settings()] and constructor: on success a new
    object is built. *)
Definition construct (p : Provider) (res : Outcome unit) : M ChatModel :=
  fun st =>
    match res with
    | Raise e => (Raise e, st)
    | Return _ =>
        let m := mkChatModel (next_id st) p in
        (Return m,
         mkState (_histories st) (fireworks_cache st) (S (next_id st))
                 (calls st ++ [Constructed m]))
    end.

Module llm_gemini.

(** [def get_llm()], undecorated: every call builds a model. *)
Definition get_llm (env : Env) : M ChatModel :=
  construct Gemini (new_gemini env).

End llm_gemini.

Module llm_fireworks.

(** [@lru_cache def get_llm()]: the first call that returns stores its
    result, later calls return the stored object; an exception stores
    nothing. *)
Definition get_llm (env : Env) : M ChatModel := fun st =>
  match fireworks_cache st with
  | Some m => (Return m, st)
  | None =>
      match construct Fireworks (new_fireworks env) st with
      | (Return m, st') => (Return m, set_fireworks_cache (Some m) st')
      | (Raise e, st') => (Raise e, st')
      end
  end.

End llm_fireworks.

(** [llm.invoke(prompt)] followed by [StrOutputParser()]. *)
Definition llm_invoke (env : Env) (llm : ChatModel) (prompt : list Message)
  : M pystr :=
  fun st =>
    (generate env (model_provider llm) prompt,
     record_call (Generated llm prompt) st).

(** ** backend/rag/retriever.py *)

Definition Retriever : Type := pystr → M (list Document).

(** [retriever.invoke(question)] *)
Definition retriever_invoke (env : Env) : Retriever := fun query st =>
  (search env query, record_call (Retrieved query) st).

(** [get_retriever()]: [_store().as_retriever(...)].  What [_store()] and
    [_emb()] do for this request, building the store and the embedding
    model or returning the cached ones, comes to [open_store]: it returns
    or it raises.  Their caches and the connection they make are kept
    neither in the state nor in the record of calls.  No search is made. *)
Definition get_retriever (env : Env) : M Retriever := fun st =>
  match open_store env with
  | Raise e => (Raise e, st)
  | Return _ => (Return (retriever_invoke env), st)
  end.

(** ** backend/rag/chains.py *)

Definition SCOPE_MSG : pystr :=
  str "That topic is outside my scope. I can help with MFI Business Document related information.".

Definition system_prompt : pystr :=
  str "You are a helpful assistant for microfinance domain Q&A. "
  ++ str "Answer strictly and briefly using ONLY the provided CONTEXT. "
  ++ str "If the question is unrelated to microfinance documents or the CONTEXT "
  ++ str "is insufficient, respond exactly: " ++ [DQUOTE] ++ SCOPE_MSG ++ [DQUOTE].

(** The input [{"question": ..., "history": ...}] of the chain. *)
Record ChainInput := mkChainInput {
  question : pystr;
  history : list Message
}.

(** The chat prompt: the system instruction, the history, then the human
    turn ["Question: {question}\n\nCONTEXT:\n{context}"]. *)
Definition prompt (q : pystr) (hist : list Message) (context : pystr)
  : list Message :=
  mkMessage System system_prompt
  :: hist
  ++ [mkMessage Human
        (str "Question: " ++ q ++ [LF; LF] ++ str "CONTEXT:" ++ [LF] ++ context)].

(** The branch condition [not d.get("context", "").strip()]. *)
Definition refuse_condition (context : pystr) : bool :=
  match strip context with
  | [] => true
  | _ :: _ => false
  end.

(** [build_chain(llm, retriever)], applied to its input. *)
Definition build_chain (env : Env) (llm : ChatModel) (retriever : Retriever)
    (input : ChainInput) : M Answer :=
  docs <- retriever (question input) ;;
  let context := _join_docs docs in
  if refuse_condition context then ret (mkAnswer SCOPE_MSG)
  else
    text <- llm_invoke env llm (prompt (question input) (history input) context) ;;
    ret (mkAnswer text).

(** ** backend/api/routes_chat.py *)

Record Query := mkQuery {
  message : pystr;
  session_id : option pystr;
  provider : option pystr
}.

Definition ABUSIVE_WORDS : gset pystr :=
  {[ str "idiot"; str "stupid"; str "nonsense"; str "fool"; str "shit";
     str "fuck"; str "bastard"; str "moron"; str "asshole"; str "chutiya" ]}.

(** [any(bad in t for bad in ABUSIVE_WORDS)] with [t = text.lower()] *)
Definition contains_abuse (env : Env) (text : pystr) : bool :=
  let t := str_lower env text in
  existsb (fun bad => py_in bad t) (elements ABUSIVE_WORDS).

(** The answer of the abuse guard in [chat]. *)
Definition ABUSE_MSG : pystr :=
  str "I" ++ [RSQUO] ++ str "m here to help with MFI Business Document queries. "
  ++ str "I can" ++ [RSQUO] ++ str "t continue when there" ++ [RSQUO]
  ++ str "s abusive language" ++ [EMDASH]
  ++ str "please rephrase your question respectfully.".

(** The two shapes of dict [chat_debug] returns. *)
Inductive DebugResponse :=
| Chunks (chunks : list pystr)
| ErrorTrace (error trace : pystr).

(** The [/chat_debug] endpoint: [get_retriever().invoke(q.message)] and
    [d.page_content[:300]] for each document, all inside [try]. *)
Definition chat_debug (env : Env) (q : Query) : M DebugResponse :=
  try_except
    (retriever <- get_retriever env ;;
     docs <- retriever (message q) ;;
     ret (Chunks (map (fun d => take 300 (page_content d)) docs)))
    (fun e => ret (ErrorTrace (exc_str e) (exc_trace e))).

(** [_histories.setdefault(session_id or "default", InMemoryChatMessageHistory())];
    the result is the bucket, named by its key. *)
Definition _get_history (sid : pystr) : M pystr := fun st =>
  let key := str_or sid (str "default") in
  match _histories st !! key with
  | Some _ => (Return key, st)
  | None => (Return key, set_histories (<[key := []]> (_histories st)) st)
  end.

(** What a history callback can be handed: a config dict, whose
    ["configurable"] entry is missing or falsy ([None]) or is a dict with
    or without a ["session_id"], or a value that is not a dict, here a
    string. *)
Inductive CfgArg :=
| CfgDict (configurable : option (option pystr))
| CfgStr (s : pystr).

(** [sid = "default"]; [if isinstance(cfg, dict): sid =
    (cfg.get("configurable") or {}).get("session_id", "default")];
    [return _get_history(sid)].  For an argument that is not a dict the
    [if] does not fire and [sid] stays ["default"]. *)
Definition _history_from_cfg (cfg : CfgArg) : M pystr :=
  let sid :=
    match cfg with
    | CfgDict (Some (Some s)) => s
    | CfgDict (Some None) | CfgDict None => str "default"
    | CfgStr _ => str "default"
    end in
  _get_history sid.

(** [hist.messages] *)
Definition history_messages (hist : pystr) : M (list Message) := fun st =>
  (Return (default [] (_histories st !! hist)), st).

(** [hist.add_messages(ms)] *)
Definition add_messages (hist : pystr) (ms : list Message) : M unit := fun st =>
  (Return tt,
   set_histories
     (<[hist := default [] (_histories st !! hist) ++ ms]> (_histories st)) st).

(** [RunnableWithMessageHistory(chain, get_session_history,
    input_messages_key="question", history_messages_key="history",
    output_messages_key="answer").invoke({"question": q}, config=cfg)],
    per the class's contract in langchain_core: the callback takes the
    value of [cfg["configurable"]["session_id"]] as its one positional
    argument; the messages of the history it returns are passed to the
    chain under ["history"]; when the chain has returned, the input as a
    human message and the output as an AI message are added to that
    history; when the chain raises, nothing is added and the exception
    goes on to the caller. *)
Definition RunnableWithMessageHistory
    (chain : ChainInput → M Answer)
    (get_session_history : CfgArg → M pystr)
    (q : pystr) (cfg_session_id : pystr) : M Answer :=
  hist <- get_session_history (CfgStr cfg_session_id) ;;
  messages <- history_messages hist ;;
  out <- chain (mkChainInput q messages) ;;
  _ <- add_messages hist [mkMessage Human q; mkMessage AI (answer out)] ;;
  ret out.

(** [prov = (provider or "gemini").lower()]; the fireworks module when
    [prov == "fireworks"], the gemini module otherwise. *)
Definition _pick_llm (env : Env) (provider : option pystr) : M ChatModel :=
  let prov := str_lower env (py_or provider (str "gemini")) in
  if decide (prov = str "fireworks") then llm_fireworks.get_llm env
  else llm_gemini.get_llm env.

(** The [/chat] endpoint: the abuse guard, then the model, the retriever
    (evaluated as the argument of [build_chain]), the chain wrapped with
    the message history and invoked with the session id
    [q.session_id or "default"], and the result as [{"answer": ...}]. *)
Definition chat (env : Env) (q : Query) : M Answer :=
  if contains_abuse env (message q) then ret (mkAnswer ABUSE_MSG)
  else
    llm <- _pick_llm env (provider q) ;;
    retriever <- get_retriever env ;;
    let chain := build_chain env llm retriever in
    let sid := py_or (session_id q) (str "default") in
    result <- RunnableWithMessageHistory chain _history_from_cfg (message q) sid ;;
    ret (mkAnswer (answer result)).

(** A sequence of requests, each met by its own environment, served one
    after the other. *)
Fixpoint serve (reqs : list (Env * Query)) (st : State)
  : list (Outcome Answer) * State :=
  match reqs with
  | [] => ([], st)
  | (env, q) :: rest =>
      let '(r, st') := chat env q st in
      let '(rs, st'') := serve rest st' in
      (r :: rs, st'')
  end.

(** The turns recorded for a session: the messages of its bucket, none
    when there is no bucket. *)
Definition turns_of (st : State) (sid : pystr) : list Message :=
  default [] (_histories st !! sid).

(** ** Notions used to state the properties *)

Definition is_return {A} (o : Outcome A) : Prop :=
  match o with
  | Return _ => True
  | Raise _ => False
  end.

(** The user turn and the assistant turn of one answered request. *)
Definition turn_pair (q a : pystr) : list Message :=
  [mkMessage Human q; mkMessage AI a].

(** The turns a run of answered requests adds, in call order. *)
Fixpoint transcript (reqs : list (Env * Query)) (outs : list (Outcome Answer))
  : list Message :=
  match reqs, outs with
  | (_, q) :: reqs', Return a :: outs' =>
      turn_pair (message q) (answer a) ++ transcript reqs' outs'
  | _, _ => []
  end.

(** The store once [setdefault] has made sure of the ["default"] bucket. *)
Definition with_default_bucket (h : gmap pystr (list Message))
  : gmap pystr (list Message) :=
  match h !! str "default" with
  | Some _ => h
  | None => <[str "default" := []]> h
  end.

Definition opened (st : State) : State :=
  set_histories (with_default_bucket (_histories st)) st.

(** Every way a request that passed the abuse guard can end. *)
Inductive chat_run (env : Env) (q : Query) (st : State)
  : Outcome Answer → State → Prop :=
| run_no_model e st1 :
    _pick_llm env (provider q) st = (Raise e, st1) →
    chat_run env q st (Raise e) st1
| run_no_store llm e st1 :
    _pick_llm env (provider q) st = (Return llm, st1) →
    open_store env = Raise e →
    chat_run env q st (Raise e) st1
| run_chain_raised llm e st1 st2 :
    _pick_llm env (provider q) st = (Return llm, st1) →
    open_store env = Return tt →
    build_chain env llm (retriever_invoke env)
      (mkChainInput (message q) (turns_of st (str "default"))) (opened st1)
    = (Raise e, st2) →
    chat_run env q st (Raise e) st2
| run_answered llm out st1 st2 :
    _pick_llm env (provider q) st = (Return llm, st1) →
    open_store env = Return tt →
    build_chain env llm (retriever_invoke env)
      (mkChainInput (message q) (turns_of st (str "default"))) (opened st1)
    = (Return out, st2) →
    chat_run env q st (Return (mkAnswer (answer out)))
      (set_histories
         (<[str "default" :=
              turns_of st (str "default") ++ turn_pair (message q) (answer out)]>
            (_histories st2)) st2).

(** What [chat_debug] comes to, with the [try] resolved. *)
Definition chat_debug_result (env : Env) (q : Query) (st : State)
  : Outcome DebugResponse * State :=
  match open_store env with
  | Raise e => (Return (ErrorTrace (exc_str e) (exc_trace e)), st)
  | Return _ =>
      match search env (message q) with
      | Return docs =>
          (Return (Chunks (map (fun d => take 300 (page_content d)) docs)),
           record_call (Retrieved (message q)) st)
      | Raise e =>
          (Return (ErrorTrace (exc_str e) (exc_trace e)),
           record_call (Retrieved (message q)) st)
      end
  end.

(** ** Sample environments *)

(** [str.lower] on a string of ASCII characters. *)
Definition ascii_lower (s : pystr) : pystr :=
  map (fun c => if ((65 <=? c) && (c <=? 90))%N then (c + 32)%N else c) s.

Definition timeout_error : PyException :=
  mkException (str "TimeoutError") (str "timed out")
    (str "Traceback (most recent call last): TimeoutError: timed out").

(** Every constructor succeeds; the search returns [docs] and each provider
    replies [reply], whatever the query and the prompt. *)
Definition sample_env (docs : Outcome (list Document)) (reply : Outcome pystr)
  : Env :=
  mkEnv ascii_lower (Return tt) (Return tt) (Return tt)
        (fun _ => docs) (fun _ _ => reply).

Definition loan_chunk : Document :=
  mkDocument (str "Loans are disbursed in two tranches.") [].

Definition env_answering : Env :=
  sample_env (Return [loan_chunk]) (Return (str "In two tranches.")).

Definition env_no_chunks : Env :=
  sample_env (Return []) (Return (str "unused")).

(** The model follows its instruction and replies with the refusal text. *)
Definition env_echo : Env :=
  sample_env (Return [loan_chunk]) (Return SCOPE_MSG).

Definition env_search_down : Env :=
  sample_env (Raise timeout_error) (Return (str "unused")).

Definition gemini0 : ChatModel := mkChatModel 0 Gemini.

(** ** backend/main.py *)

Module main.

(** [_env(name, default)] over the process environment [os.environ]:
    [v = os.getenv(name, default)], stripped when it is not [None]. *)
Definition _env (environ : gmap pystr pystr) (name : pystr)
    (dflt : option pystr) : option pystr :=
  strip <$> (match environ !! name with
             | Some v => Some v
             | None => dflt
             end).

(** The set of the two local origins and [_env("FRONTEND_ORIGIN") or ""],
    with the empty strings dropped. *)
Definition frontend_origins (environ : gmap pystr pystr) : gset pystr :=
  let origins : gset pystr :=
    {[ str "http://127.0.0.1:8501"; str "http://localhost:8501";
       py_or (_env environ (str "FRONTEND_ORIGIN") None) [] ]} in
  filter (fun o => o ≠ []) origins.

(** [allow_origins=list(frontend_origins) or ["*"]]; the order of the list
    is the set's. *)
Definition allow_origins (environ : gmap pystr pystr) : list pystr :=
  match elements (frontend_origins environ) with
  | [] => [str "*"]
  | o :: os => o :: os
  end.

(** [_warm_retriever()]: [get_retriever()] inside [try].  What is logged,
    and the store and embedding caches the call fills, are not part of
    the state. *)
Definition _warm_retriever (env : Env) : M unit :=
  try_except (_ <- get_retriever env ;; ret tt) (fun _ => ret tt).

(** [_warm_llms()]: the gemini model inside [try], then the fireworks
    model inside [try] when its module could be imported
    ([get_fireworks_llm] is not [None]). *)
Definition _warm_llms (env : Env) (fireworks_imported : bool) : M unit :=
  _ <- try_except (_ <- llm_gemini.get_llm env ;; ret tt) (fun _ => ret tt) ;;
  if fireworks_imported
  then try_except (_ <- llm_fireworks.get_llm env ;; ret tt) (fun _ => ret tt)
  else ret tt.

(** [manual_warmup()], the [/warmup] endpoint, returning
    [{"status": "warmed"}]; [_startup()] runs the same two steps. *)
Definition manual_warmup (env : Env) (fireworks_imported : bool) : M pystr :=
  _ <- _warm_retriever env ;;
  _ <- _warm_llms env fireworks_imported ;;
  ret (str "warmed").

End main.

(** ** frontend/app.py *)

Module app.

Definition REFUSAL_TEXT : pystr :=
  str "That topic is outside my scope. I can help with MFI Business Document related information.".

(** [answer.strip().startswith(REFUSAL_TEXT)], the test that renders an
    answer as the out-of-scope callout. *)
Definition shown_as_refusal (answer : pystr) : bool :=
  starts_with REFUSAL_TEXT (strip answer).

End app.

(** ** backend/services/ingest_pgvector.py *)

Module ingest_pgvector.

(** [d.get(k)] on a dict kept as its items in insertion order. *)
Fixpoint dict_get (k : pystr) (d : list (pystr * pystr)) : option pystr :=
  match d with
  | [] => None
  | (k', v) :: d' => if decide (k' = k) then Some v else dict_get k d'
  end.

(** [(c.metadata or {}).get("source", "unknown")] *)
Definition source_of (c : Document) : pystr :=
  default (str "unknown") (dict_get (str "source") (metadata c)).

(** One round of the counting loop:
    [src = (c.metadata or {}).get("source", "unknown")];
    [by_src[src] = by_src.get(src, 0) + 1]. *)
Definition count_chunk (acc : gmap pystr nat) (c : Document) : gmap pystr nat :=
  let src := source_of c in
  <[src := default 0 (acc !! src) + 1]> acc.

(** [by_src], once the loop has gone over the chunks. *)
Definition by_src (chunks : list Document) : gmap pystr nat :=
  foldl count_chunk ∅ chunks.

(** [d.metadata = d.metadata or {}; d.metadata.setdefault("source", name)]
    with [name] the file name of the path being loaded. *)
Definition set_source (name : pystr) (d : Document) : Document :=
  match dict_get (str "source") (metadata d) with
  | Some _ => d
  | None => mkDocument (page_content d) (metadata d ++ [(str "source", name)])
  end.

End ingest_pgvector.

(** The sum of the counts of a breakdown. *)
Definition total (m : gmap pystr nat) : nat :=
  map_fold (fun _ n acc => n + acc) 0 m.

(** Environments in which a collaborator is down. *)
Definition env_no_key : Env :=
  mkEnv ascii_lower (Raise timeout_error) (Raise timeout_error) (Return tt)
        (fun _ => Return []) (fun _ _ => Return (str "unused")).

Definition env_no_store : Env :=
  mkEnv ascii_lower (Return tt) (Return tt) (Raise timeout_error)
        (fun _ => Return [loan_chunk]) (fun _ _ => Return (str "unused")).

(** The recorded calls that are a search or a generation request. *)
Definition is_search_or_generation (ev : Event) : bool :=
  match ev with
  | Retrieved _ | Generated _ _ => true
  | Constructed _ => false
  end.


(** ** Facts about the string operations *)

Section StringFacts.

Lemma starts_with_spec (p t : pystr) :
  starts_with p t = true ↔ ∃ r, t = p ++ r.
Proof.
  revert t; induction p as [|a p IH]; intros t; simpl.
  - split; [intros _; by exists t | done].
  - destruct t as [|b t].
    + split; [done | intros [r Hr]; discriminate].
    + rewrite andb_true_iff, N.eqb_eq, IH. split.
      * intros [-> [r ->]]. by exists r.
      * intros [r Hr]. injection Hr as -> ->. eauto.
Qed.

Lemma py_in_spec (p t : pystr) :
  py_in p t = true ↔ ∃ l r, t = l ++ p ++ r.
Proof.
  induction t as [|b t IH].
  - simpl. rewrite orb_false_r, starts_with_spec. split.
    + intros [r Hr]. by exists [], r.
    + intros [l [r Hr]]. destruct l; [by exists r | discriminate].
  - cbn [py_in]. rewrite orb_true_iff, starts_with_spec, IH. split.
    + intros [[r Hr] | [l [r Hr]]].
      * by exists [], r.
      * exists (b :: l), r. by rewrite Hr.
    + intros [l [r Hr]]. destruct l as [|c l].
      * left. by exists r.
      * right. injection Hr as _ Hr. by exists l, r.
Qed.

Lemma lstrip_nil_iff (s : pystr) :
  lstrip s = [] ↔ forallb py_isspace s = true.
Proof.
  induction s as [|c s IH]; simpl; [done |].
  destruct (py_isspace c); simpl; [done |]. split; discriminate.
Qed.

Lemma lstrip_all_space (s : pystr) :
  forallb py_isspace s = true → lstrip s = [].
Proof. apply lstrip_nil_iff. Qed.

(** [s.strip()] is empty exactly when [s] holds only whitespace. *)
Lemma strip_nil_iff (s : pystr) :
  strip s = [] ↔ forallb py_isspace s = true.
Proof.
  unfold strip, rstrip. split.
  - intros H. apply (f_equal (@rev N)) in H. rewrite rev_involutive in H.
    simpl in H. apply lstrip_nil_iff.
    destruct (lstrip s) as [|c r] eqn:E; [done |].
    exfalso.
    assert (Hns : py_isspace c = false).
    { clear H. induction s as [|a s IH]; simpl in E; [done |].
      destruct (py_isspace a) eqn:Ea; [auto | by injection E as <- _]. }
    assert (Hl : ∀ (u : pystr), lstrip (u ++ [c]) ≠ []).
    { induction u as [|a u IHu]; simpl.
      - by rewrite Hns.
      - destruct (py_isspace a); [done | discriminate]. }
    apply (Hl (rev r)). simpl in H. done.
  - intros H. apply lstrip_all_space in H. by rewrite H.
Qed.

Lemma join_nil_iff (sep : pystr) (parts : list pystr) :
  sep ≠ [] → (join sep parts = [] ↔ parts = [] ∨ parts = [[]]).
Proof.
  intros Hsep. destruct parts as [|p [|q rest]]; simpl.
  - split; auto.
  - split; [intros ->; auto | intros [? | [= ->]]; done].
  - split.
    + intros H. apply app_eq_nil in H as [_ H].
      apply app_eq_nil in H as [H _]. done.
    + intros [? | ?]; discriminate.
Qed.

End StringFacts.


(** ** What each step does to the session store *)

Section Frames.

Context (env : Env).

Lemma set_histories_id st : set_histories (_histories st) st = st.
Proof. by destruct st. Qed.

Lemma with_default_bucket_lookup (h : gmap pystr (list Message)) sid :
  default [] (with_default_bucket h !! sid) = default [] (h !! sid).
Proof.
  unfold with_default_bucket.
  destruct (h !! str "default") eqn:E; [done |].
  destruct (decide (sid = str "default")) as [-> | Hne].
  - by rewrite lookup_insert_eq, E.
  - by rewrite lookup_insert_ne.
Qed.

Lemma turns_of_opened st sid : turns_of (opened st) sid = turns_of st sid.
Proof. apply with_default_bucket_lookup. Qed.

Lemma get_history_eq sid st :
  _get_history sid st
  = (Return (str_or sid (str "default")),
     match _histories st !! str_or sid (str "default") with
     | Some _ => st
     | None =>
         set_histories
           (<[str_or sid (str "default") := []]> (_histories st)) st
     end).
Proof.
  unfold _get_history.
  by destruct (_histories st !! str_or sid (str "default")).
Qed.

(** Handed a string, the callback opens the ["default"] bucket. *)
Lemma history_from_cfg_opened s st :
  _history_from_cfg (CfgStr s) st = (Return (str "default"), opened st).
Proof.
  unfold _history_from_cfg. rewrite get_history_eq.
  change (str_or (str "default") (str "default")) with (str "default").
  unfold opened, with_default_bucket.
  destruct (_histories st !! str "default"); [| done].
  by rewrite set_histories_id.
Qed.

Lemma construct_frame p r st :
  _histories (snd (construct p r st)) = _histories st.
Proof. unfold construct. by destruct r. Qed.

Lemma construct_result p r st m st' :
  construct p r st = (Return m, st') → model_provider m = p.
Proof. unfold construct. destruct r; [by intros [= <- _] | done]. Qed.

Lemma construct_raise p r st e st' :
  construct p r st = (Raise e, st') → r = Raise e ∧ st' = st.
Proof. unfold construct. destruct r; [done | by intros [= <- <-]]. Qed.

Lemma construct_return p st :
  construct p (Return tt) st
  = (Return (mkChatModel (next_id st) p),
     mkState (_histories st) (fireworks_cache st) (S (next_id st))
       (calls st ++ [Constructed (mkChatModel (next_id st) p)])).
Proof. done. Qed.

Lemma gemini_frame st :
  _histories (snd (llm_gemini.get_llm env st)) = _histories st.
Proof. apply construct_frame. Qed.

Lemma fireworks_frame st :
  _histories (snd (llm_fireworks.get_llm env st)) = _histories st.
Proof.
  unfold llm_fireworks.get_llm.
  destruct (fireworks_cache st); [done |].
  pose proof (construct_frame Fireworks (new_fireworks env) st) as H.
  destruct (construct Fireworks (new_fireworks env) st) as [[m | e] st'];
    simpl in *; done.
Qed.

Lemma pick_llm_frame prov st :
  _histories (snd (_pick_llm env prov st)) = _histories st.
Proof.
  unfold _pick_llm. case_decide; [apply fireworks_frame | apply gemini_frame].
Qed.

Lemma get_retriever_cases st :
  (get_retriever env st = (Return (retriever_invoke env), st)
   ∧ open_store env = Return tt)
  ∨ ∃ e, open_store env = Raise e ∧ get_retriever env st = (Raise e, st).
Proof.
  unfold get_retriever. destruct (open_store env) as [[] | e]; eauto.
Qed.

Lemma build_chain_frame llm input st :
  _histories (snd (build_chain env llm (retriever_invoke env) input st))
  = _histories st.
Proof.
  unfold build_chain, bind, retriever_invoke, llm_invoke, ret.
  destruct (search env (question input)) as [docs | e]; simpl; [|done].
  destruct (refuse_condition (_join_docs docs)); simpl; [done |].
  by destruct (generate env (model_provider llm) _).
Qed.

End Frames.

(** ** The orchestrator, case by case *)

Section Orchestrator.

Context (env : Env).

Lemma rwmh_eq (chain : ChainInput → M Answer) q sid st :
  RunnableWithMessageHistory chain _history_from_cfg q sid st
  = match chain (mkChainInput q (turns_of st (str "default"))) (opened st) with
    | (Return out, st1) =>
        (Return out,
         set_histories
           (<[str "default" :=
                turns_of st1 (str "default") ++ turn_pair q (answer out)]>
              (_histories st1)) st1)
    | (Raise e, st1) => (Raise e, st1)
    end.
Proof.
  unfold RunnableWithMessageHistory, bind.
  rewrite history_from_cfg_opened. unfold history_messages.
  change (default [] (_histories (opened st) !! str "default"))
    with (turns_of (opened st) (str "default")).
  rewrite turns_of_opened.
  by destruct (chain _ (opened st)) as [[out | e] st1].
Qed.

Lemma chat_abuse q st :
  contains_abuse env (message q) = true →
  chat env q st = (Return (mkAnswer ABUSE_MSG), st).
Proof. intros H. unfold chat. by rewrite H. Qed.

Lemma chat_runs q st r st' :
  contains_abuse env (message q) = false →
  chat env q st = (r, st') → chat_run env q st r st'.
Proof.
  intros Hab. unfold chat. rewrite Hab. unfold bind.
  pose proof (pick_llm_frame env (provider q) st) as Hfr.
  destruct (_pick_llm env (provider q) st) as [[llm | e] st1] eqn:Hpick;
    simpl in Hfr; [| intros [= <- <-]; by eapply run_no_model].
  destruct (get_retriever_cases env st1) as [[-> Hopen] | [e [Hopen ->]]];
    [| intros [= <- <-]; by eapply run_no_store].
  rewrite rwmh_eq.
  assert (Ht : turns_of st1 (str "default") = turns_of st (str "default"))
    by (unfold turns_of; by rewrite Hfr).
  rewrite Ht.
  pose proof (build_chain_frame env llm
    (mkChainInput (message q) (turns_of st (str "default"))) (opened st1))
    as Hbf.
  destruct (build_chain env llm (retriever_invoke env) _ (opened st1))
    as [[out | e] st2] eqn:Hchain; simpl in Hbf; intros [= <- <-].
  - assert (Ht2 : turns_of st2 (str "default") = turns_of st (str "default")).
    { unfold turns_of at 1. rewrite Hbf.
      change (turns_of (opened st1) (str "default")
              = turns_of st (str "default")).
      by rewrite turns_of_opened. }
    rewrite Ht2. by eapply run_answered.
  - by eapply run_chain_raised.
Qed.

(** A request that raises leaves every session's turns as they were. *)
Lemma chat_run_raise_turns q st e st' :
  chat_run env q st (Raise e) st' → ∀ sid, turns_of st' sid = turns_of st sid.
Proof.
  intros Hrun sid. inversion Hrun as
    [e0 st1 Hpick | llm e0 st1 Hpick Hopen
     | llm e0 st1 st2 Hpick Hopen Hchain | ]; subst.
  - pose proof (pick_llm_frame env (provider q) st) as H.
    rewrite Hpick in H. simpl in H. unfold turns_of. by rewrite H.
  - pose proof (pick_llm_frame env (provider q) st) as H.
    rewrite Hpick in H. simpl in H. unfold turns_of. by rewrite H.
  - pose proof (pick_llm_frame env (provider q) st) as H.
    rewrite Hpick in H. simpl in H.
    pose proof (build_chain_frame env llm
      (mkChainInput (message q) (turns_of st (str "default"))) (opened st1))
      as Hbf.
    rewrite Hchain in Hbf. simpl in Hbf.
    unfold turns_of at 1. rewrite Hbf.
    change (turns_of (opened st1) sid = turns_of st sid).
    rewrite turns_of_opened. unfold turns_of. by rewrite H.
Qed.

(** An answered request adds its two turns to the ["default"] bucket and
    touches no other bucket, whatever its session id. *)
Lemma chat_run_return_histories q st a st' :
  chat_run env q st (Return a) st' →
  _histories st'
  = <[str "default" :=
        turns_of st (str "default") ++ turn_pair (message q) (answer a)]>
      (_histories st).
Proof.
  intros Hrun. inversion Hrun as [ | | | llm out st1 st2 Hpick Hopen Hchain];
    subst. simpl.
  pose proof (pick_llm_frame env (provider q) st) as H.
  rewrite Hpick in H. simpl in H.
  pose proof (build_chain_frame env llm
    (mkChainInput (message q) (turns_of st (str "default"))) (opened st1))
    as Hbf.
  rewrite Hchain in Hbf. simpl in Hbf. rewrite Hbf. simpl. rewrite H.
  unfold with_default_bucket.
  destruct (_histories st !! str "default"); [done |].
  by rewrite insert_insert_eq.
Qed.

Lemma chat_success_histories q st a st' :
  contains_abuse env (message q) = false →
  chat env q st = (Return a, st') →
  _histories st'
  = <[str "default" :=
        turns_of st (str "default") ++ turn_pair (message q) (answer a)]>
      (_histories st).
Proof.
  intros Hab Hchat. eapply chat_run_return_histories, chat_runs; eassumption.
Qed.

Lemma chat_debug_eq q st : chat_debug env q st = chat_debug_result env q st.
Proof.
  unfold chat_debug, chat_debug_result, try_except, bind, get_retriever,
    retriever_invoke, ret.
  destruct (open_store env) as [[] | e]; [| reflexivity].
  destruct (search env (message q)); reflexivity.
Qed.

End Orchestrator.

Lemma app_singleton_neq {A} (l : list A) (x : A) : l ++ [x] ≠ l.
Proof.
  intros H. apply (f_equal length) in H. rewrite length_app in H.
  simpl in H. lia.
Qed.

Lemma refuse_condition_true_iff context :
  refuse_condition context = true ↔ strip context = [].
Proof. unfold refuse_condition. by destruct (strip context). Qed.

Lemma any_in_spec (words : gset pystr) (t : pystr) :
  existsb (fun bad => py_in bad t) (elements words) = true ↔
  ∃ bad, bad ∈ words ∧ ∃ l r, t = l ++ bad ++ r.
Proof.
  rewrite existsb_exists. split.
  - intros [bad [Hin Hsub]]. exists bad. split.
    + apply elem_of_elements, list_elem_of_In, Hin.
    + apply py_in_spec, Hsub.
  - intros [bad [Hin Hsub]]. exists bad. split.
    + apply list_elem_of_In, elem_of_elements, Hin.
    + apply py_in_spec, Hsub.
Qed.

(** X3: served one after the other, requests that pass the abuse check
    and are all answered add exactly their turns, a user turn then an
    assistant turn for each, in call order, to the ["default"] bucket,
    whatever their session ids; the turns of every other session are as
    they were. *)
Lemma serve_records_in_default (reqs : list (Env * Query)) :
  ∀ st outs st',
    serve reqs st = (outs, st') →
    Forall (fun rq => contains_abuse rq.1 (message rq.2) = false) reqs →
    Forall is_return outs →
    turns_of st' (str "default")
    = turns_of st (str "default") ++ transcript reqs outs
    ∧ ∀ sid, sid ≠ str "default" → turns_of st' sid = turns_of st sid.
Proof.
  induction reqs as [| [env q] reqs IH]; intros st outs st' Hs Hab Hret.
  - injection Hs as <- <-. simpl. rewrite app_nil_r. auto.
  - cbn [serve] in Hs.
    destruct (chat env q st) as [r st1] eqn:Hc.
    destruct (serve reqs st1) as [rs st2] eqn:Hs2.
    injection Hs as <- <-.
    apply Forall_cons in Hab as [Hab1 Hab]. apply Forall_cons in Hret as [Hr1 Hret].
    destruct r as [a | e]; [| contradiction].
    pose proof (chat_success_histories env q st a st1 Hab1 Hc) as Hh.
    destruct (IH st1 rs st2 Hs2 Hab Hret) as [IH1 IH2]. split.
    + rewrite IH1. unfold turns_of at 1. rewrite Hh, lookup_insert_eq.
      cbn [default transcript message answer snd id]. by rewrite <- app_assoc.
    + intros sid Hne. rewrite (IH2 sid Hne). unfold turns_of.
      rewrite Hh. rewrite lookup_insert_ne; [reflexivity | congruence].
Qed.

(** ** The context assembler *)

(** C4, as the code has it: the assembled context is the empty string
    exactly when there is no chunk at all or there is a single chunk whose
    text is itself empty.  So no chunk gives the empty context, and a
    sequence of two or more chunks, or of one chunk with a non-empty text,
    never does. *)
Theorem join_docs_empty_iff (docs : list Document) :
  _join_docs docs = [] ↔
  docs = [] ∨ ∃ d, docs = [d] ∧ page_content d = [].
Proof.
  unfold _join_docs. rewrite join_nil_iff by done. split.
  - intros [H | H].
    + left. by destruct docs.
    + right. destruct docs as [|d [|d' docs]]; try discriminate.
      injection H as H. eauto.
  - intros [-> | [d [-> Hd]]]; [by left | right]. simpl. by rewrite Hd.
Qed.

(** C4, the claim as stated fails: one retrieved chunk whose text is empty
    is a non-empty sequence of chunks, and its context is the empty
    string. *)
Lemma join_docs_empty_nonempty_chunks :
  let docs := [mkDocument [] []] in
  docs ≠ [] ∧ _join_docs docs = [] ∧
  ¬ (_join_docs docs = [] ↔ docs = []).
Proof.
  simpl. split; [done |]. split; [done |].
  intros [H _]. specialize (H eq_refl). discriminate.
Qed.

(** ** The scope gate *)

(** C1, as the code has it: for a request whose retrieval returned [docs],
    with [context] the assembled context: if [context.strip()] is empty the
    chain returns the answer [SCOPE_MSG] and makes no generation call; if
    it is not empty the chain makes one generation call, with the prompt
    built from the question, the history and the context, and returns the
    model's text as the answer (or raises what the model raised).  Whether
    a generation call is made depends on [context.strip()] alone, for every
    model and every history. *)
Theorem scope_gate_decision (env : Env) (llm : ChatModel) (input : ChainInput)
    (docs : list Document) (st : State) :
  search env (question input) = Return docs →
  let context := _join_docs docs in
  let run := build_chain env llm (retriever_invoke env) input st in
  let st1 := record_call (Retrieved (question input)) st in
  let p := prompt (question input) (history input) context in
  (strip context = [] → run = (Return (mkAnswer SCOPE_MSG), st1))
  ∧ (strip context ≠ [] →
       run = (match generate env (model_provider llm) p with
              | Return text => Return (mkAnswer text)
              | Raise e => Raise e
              end,
              record_call (Generated llm p) st1))
  ∧ (calls run.2 = calls st1 ↔ strip context = []).
Proof.
  intros Hs context run st1 p.
  assert (Hrun : run =
    if refuse_condition context then (Return (mkAnswer SCOPE_MSG), st1)
    else (match generate env (model_provider llm) p with
          | Return text => Return (mkAnswer text)
          | Raise e => Raise e
          end, record_call (Generated llm p) st1)).
  { subst run. unfold build_chain, bind, retriever_invoke. rewrite Hs.
    fold context. destruct (refuse_condition context); [done |].
    unfold llm_invoke. fold p. fold st1.
    by destruct (generate env (model_provider llm) p). }
  pose proof (refuse_condition_true_iff context) as Hrc.
  destruct (refuse_condition context) eqn:E.
  - assert (Hb : strip context = []) by by apply Hrc.
    repeat split; try done. by rewrite Hrun.
  - assert (Hb : strip context ≠ []).
    { intros Hb. apply Hrc in Hb. discriminate. }
    repeat split; try done.
    rewrite Hrun. simpl. intros Hc. exfalso.
    by apply (app_singleton_neq (calls st1) (Generated llm p)).
Qed.

Lemma scope_gate_decision_witness :
  build_chain env_no_chunks gemini0 (retriever_invoke env_no_chunks)
    (mkChainInput (str "What's the weather today?") []) fresh
  = (Return (mkAnswer SCOPE_MSG),
     record_call (Retrieved (str "What's the weather today?")) fresh).
Proof.
  apply (proj1 (scope_gate_decision env_no_chunks gemini0
                  (mkChainInput (str "What's the weather today?") [])
                  [] fresh eq_refl)).
  reflexivity.
Defined.

(** C1, the claim as stated fails: with a chunk retrieved, so that the
    context is not blank, a model that replies with the refusal text makes
    the chain return the answer [SCOPE_MSG]. *)
Lemma scope_literal_with_evidence :
  let run := build_chain env_echo gemini0 (retriever_invoke env_echo)
               (mkChainInput (str "What is the loan disbursement process?") [])
               fresh in
  run.1 = Return (mkAnswer SCOPE_MSG)
  ∧ strip (_join_docs [loan_chunk]) ≠ []
  ∧ ¬ (run.1 = Return (mkAnswer SCOPE_MSG)
       ↔ strip (_join_docs [loan_chunk]) = []).
Proof.
  assert (H1 : strip (_join_docs [loan_chunk]) ≠ [])
    by (vm_compute; discriminate).
  split; [by vm_compute |]. split; [exact H1 |].
  intros [H _]. apply H1, H. by vm_compute.
Qed.

(** ** Provider resolution *)

(** C2, as the code has it: a provider name whose lower-cased form is not
    ["fireworks"], be it absent, empty, ["gemini"] or a name of no provider
    at all, resolves as the gemini provider does: a model that comes back
    is a gemini model, one comes back whenever the gemini constructor
    succeeds, the only exception that can come out is the one the gemini
    constructor raised, and resolution leaves the session store as it
    was. *)
Theorem pick_llm_defaults_to_gemini (env : Env) (name : option pystr)
    (st : State) :
  str_lower env (py_or name (str "gemini")) ≠ str "fireworks" →
  _pick_llm env name st = llm_gemini.get_llm env st
  ∧ (∀ m st', _pick_llm env name st = (Return m, st') →
       model_provider m = Gemini)
  ∧ (∀ e st', _pick_llm env name st = (Raise e, st') →
       new_gemini env = Raise e ∧ st' = st)
  ∧ (new_gemini env = Return tt →
       ∃ m st', _pick_llm env name st = (Return m, st')
                ∧ model_provider m = Gemini)
  ∧ _histories (_pick_llm env name st).2 = _histories st.
Proof.
  intros Hne.
  assert (Heq : _pick_llm env name st = llm_gemini.get_llm env st).
  { unfold _pick_llm. by case_decide. }
  split; [done |]. rewrite Heq. unfold llm_gemini.get_llm.
  split; [intros m st'; apply construct_result |].
  split; [intros e st'; apply construct_raise |].
  split; [| apply construct_frame].
  intros ->. rewrite construct_return. eauto.
Qed.

Lemma pick_llm_defaults_to_gemini_witness :
  _pick_llm env_answering (Some (str "mistral")) fresh
  = llm_gemini.get_llm env_answering fresh.
Proof.
  apply (pick_llm_defaults_to_gemini env_answering (Some (str "mistral")) fresh).
  vm_compute. discriminate.
Defined.

(** C2, the claim as stated fails: the name ["mistral"], not empty and
    naming neither provider, resolves to a gemini model, nothing is raised,
    and the request it came with is answered and recorded. *)
Lemma unknown_provider_is_served :
  let name := Some (str "mistral") in
  name ≠ None ∧ name ≠ Some []
  ∧ ascii_lower (str "mistral") ≠ str "gemini"
  ∧ ascii_lower (str "mistral") ≠ str "fireworks"
  ∧ (_pick_llm env_answering name fresh).1 = Return gemini0
  ∧ ¬ (∃ e, (_pick_llm env_answering name fresh).1 = Raise e)
  ∧ turns_of (chat env_answering (mkQuery (str "hi") None name) fresh).2
      (str "default")
    = turn_pair (str "hi") (str "In two tranches.").
Proof.
  simpl. repeat split; try done; try (vm_compute; discriminate).
  intros [e He]. vm_compute in He. discriminate.
Qed.

(** llm_fireworks.get_llm returns the object it built first. *)
Lemma fireworks_cached (env env' : Env) (st st1 : State) (m : ChatModel) :
  llm_fireworks.get_llm env st = (Return m, st1) →
  llm_fireworks.get_llm env' st1 = (Return m, st1).
Proof.
  unfold llm_fireworks.get_llm.
  destruct (fireworks_cache st) as [m0 |] eqn:E.
  - intros [= <- <-]. by rewrite E.
  - destruct (construct Fireworks (new_fireworks env) st) as [[m1 | e] st'];
      [| done].
    intros [= <- <-]. reflexivity.
Qed.

(** llm_gemini.get_llm builds a new object whenever it is called. *)
Lemma gemini_never_cached (env env' : Env) (st : State) :
  new_gemini env = Return tt → new_gemini env' = Return tt →
  ∃ m1 st1 m2 st2,
    llm_gemini.get_llm env st = (Return m1, st1)
    ∧ llm_gemini.get_llm env' st1 = (Return m2, st2)
    ∧ model_id m2 = S (model_id m1)
    ∧ calls st2 = calls st ++ [Constructed m1; Constructed m2].
Proof.
  intros H1 H2. unfold llm_gemini.get_llm. rewrite H1, H2.
  rewrite construct_return. eexists _, _, _, _.
  split; [reflexivity |]. rewrite construct_return.
  split; [reflexivity |]. simpl. split; [reflexivity |].
  by rewrite <- app_assoc.
Qed.

(** C6, the code at the failing input: in a process that has just started,
    resolving the provider ["gemini"] twice runs the gemini constructor
    twice and returns two different objects. *)
Theorem gemini_rebuilt_on_each_resolution :
  let r1 := _pick_llm env_answering (Some (str "gemini")) fresh in
  let r2 := _pick_llm env_answering (Some (str "gemini")) r1.2 in
  r1.1 = Return (mkChatModel 0 Gemini)
  ∧ r2.1 = Return (mkChatModel 1 Gemini)
  ∧ r1.1 ≠ r2.1
  ∧ calls r2.2
    = [Constructed (mkChatModel 0 Gemini); Constructed (mkChatModel 1 Gemini)].
Proof. vm_compute. repeat split; discriminate. Qed.

(** ** The abuse gate *)

(** C3: the abuse check answers true exactly when some term of
    [ABUSIVE_WORDS] occurs in the lower-cased message; and on every message
    it flags, [chat] returns the abuse answer, which is not the
    scope-refusal text, and makes no outgoing call at all, so no retrieval
    and no generation. *)
Theorem abuse_gate_short_circuits (env : Env) :
  (∀ text, contains_abuse env text = true ↔
     ∃ bad, bad ∈ ABUSIVE_WORDS ∧ ∃ l r, str_lower env text = l ++ bad ++ r)
  ∧ (∀ q st, contains_abuse env (message q) = true →
       chat env q st = (Return (mkAnswer ABUSE_MSG), st)
       ∧ calls (chat env q st).2 = calls st)
  ∧ ABUSE_MSG ≠ SCOPE_MSG.
Proof.
  split; [| split].
  - intros text. apply any_in_spec.
  - intros q st H. rewrite (chat_abuse env q st H). split; reflexivity.
  - vm_compute. discriminate.
Qed.

Lemma abuse_gate_short_circuits_witness :
  chat env_answering (mkQuery (str "You're an IDIOT") None None) fresh
  = (Return (mkAnswer ABUSE_MSG), fresh).
Proof.
  apply (proj1 (proj2 (abuse_gate_short_circuits env_answering))
           (mkQuery (str "You're an IDIOT") None None) fresh).
  vm_compute. reflexivity.
Defined.

(** C8: on a message the abuse check flags, [chat] returns the abuse
    answer and the whole session store, indeed the whole process state, is
    what it was before the request. *)
Theorem abuse_blocked_leaves_store (env : Env) (q : Query) (st : State) :
  contains_abuse env (message q) = true →
  (chat env q st).1 = Return (mkAnswer ABUSE_MSG)
  ∧ _histories (chat env q st).2 = _histories st
  ∧ (chat env q st).2 = st.
Proof.
  intros H. rewrite (chat_abuse env q st H). repeat split; reflexivity.
Qed.

Lemma abuse_blocked_leaves_store_witness :
  (chat env_answering
     (mkQuery (str "what a stupid bot") (Some (str "s1")) None) fresh).2
  = fresh.
Proof.
  apply (abuse_blocked_leaves_store env_answering
           (mkQuery (str "what a stupid bot") (Some (str "s1")) None) fresh).
  vm_compute. reflexivity.
Defined.

(** ** Failures *)

(** C5, as the code has it: a request that ends in an exception leaves
    the turns of every session as they were before it; when the retrieval
    call raises, [chat] raises that very exception to its caller, as it
    is, and so it does when the generation call raises.  Nothing wraps it
    or turns it into an exception of another class. *)
Theorem chat_failure_propagates (env : Env) (q : Query) (st : State) :
  (∀ e st', chat env q st = (Raise e, st') →
     ∀ sid, turns_of st' sid = turns_of st sid)
  ∧ (∀ llm st1 e,
       contains_abuse env (message q) = false →
       _pick_llm env (provider q) st = (Return llm, st1) →
       open_store env = Return tt →
       search env (message q) = Raise e →
       (chat env q st).1 = Raise e)
  ∧ (∀ llm st1 docs e,
       contains_abuse env (message q) = false →
       _pick_llm env (provider q) st = (Return llm, st1) →
       open_store env = Return tt →
       search env (message q) = Return docs →
       strip (_join_docs docs) ≠ [] →
       generate env (model_provider llm)
         (prompt (message q) (turns_of st (str "default")) (_join_docs docs))
       = Raise e →
       (chat env q st).1 = Raise e).
Proof.
  split; [| split].
  - intros e st' Hchat.
    destruct (contains_abuse env (message q)) eqn:Hab.
    + rewrite (chat_abuse env q st Hab) in Hchat. revert Hchat.
      generalize ABUSE_MSG. intros s [=].
    + eapply chat_run_raise_turns, chat_runs; eassumption.
  - intros llm st1 e Hab Hpick Hopen Hsearch.
    unfold chat. rewrite Hab. unfold bind. rewrite Hpick.
    unfold get_retriever. rewrite Hopen. rewrite rwmh_eq.
    unfold build_chain, bind, retriever_invoke. cbn [question].
    rewrite Hsearch. reflexivity.
  - intros llm st1 docs e Hab Hpick Hopen Hsearch Hctx Hgen.
    assert (Ht : turns_of st1 (str "default") = turns_of st (str "default")).
    { pose proof (pick_llm_frame env (provider q) st) as H.
      rewrite Hpick in H. simpl in H. unfold turns_of. by rewrite H. }
    unfold chat. rewrite Hab. unfold bind. rewrite Hpick.
    unfold get_retriever. rewrite Hopen. rewrite rwmh_eq. rewrite Ht.
    unfold build_chain, bind, retriever_invoke. cbn [question history].
    rewrite Hsearch.
    destruct (refuse_condition (_join_docs docs)) eqn:E.
    + apply refuse_condition_true_iff in E. contradiction.
    + unfold llm_invoke. rewrite Hgen. reflexivity.
Qed.

Lemma chat_failure_propagates_witness :
  (chat env_search_down (mkQuery (str "hi") (Some (str "s1")) None) fresh).1
  = Raise timeout_error.
Proof.
  apply (proj1 (proj2 (chat_failure_propagates env_search_down
           (mkQuery (str "hi") (Some (str "s1")) None) fresh))
         gemini0 (_pick_llm env_search_down None fresh).2 timeout_error);
    vm_compute; reflexivity.
Defined.

(** C5, the claim as stated fails: the search raises a [TimeoutError]
    and what [chat] raises is that [TimeoutError], not an exception of
    class [UpstreamError]. *)
Lemma upstream_failure_keeps_its_class :
  let q := mkQuery (str "hi") (Some (str "s1")) None in
  search env_search_down (message q) = Raise timeout_error
  ∧ (chat env_search_down q fresh).1 = Raise timeout_error
  ∧ exc_class timeout_error = str "TimeoutError"
  ∧ ¬ (∃ e, (chat env_search_down q fresh).1 = Raise e
            ∧ exc_class e = str "UpstreamError").
Proof.
  cbn zeta. split; [reflexivity |]. split; [vm_compute; reflexivity |].
  split; [reflexivity |].
  intros [e [He Hc]]. vm_compute in He. injection He as <-.
  vm_compute in Hc. discriminate.
Qed.

(** ** Session history *)

(** C7, the code at the failing input: in a process that has just started,
    one answered request for session ["s1"] leaves no bucket for ["s1"] and
    its two turns in the bucket ["default"]; after one more answered
    request, for session ["s2"], neither session has a turn of its own and
    the four turns of both are in ["default"]. *)
Theorem session_turns_land_in_default :
  let q1 := mkQuery (str "hi") (Some (str "s1")) None in
  let q2 := mkQuery (str "yo") (Some (str "s2")) None in
  let one := serve [(env_answering, q1)] fresh in
  let two := serve [(env_answering, q1); (env_answering, q2)] fresh in
  one.1 = [Return (mkAnswer (str "In two tranches."))]
  ∧ _histories one.2 !! str "s1" = None
  ∧ turns_of one.2 (str "default")
    = turn_pair (str "hi") (str "In two tranches.")
  ∧ turns_of two.2 (str "s1") = []
  ∧ turns_of two.2 (str "s2") = []
  ∧ turns_of two.2 (str "default")
    = turn_pair (str "hi") (str "In two tranches.")
      ++ turn_pair (str "yo") (str "In two tranches.").
Proof. vm_compute. repeat split. Qed.

(** C10: an empty session id and an omitted one both become the session id
    ["default"]; [_get_history] opens the same bucket, ["default"], for the
    empty id as for ["default"]; the two requests are served alike from any
    state; and when such a request is answered, its two turns are added to
    the bucket ["default"]. *)
Theorem empty_session_id_is_default (env : Env) (msg : pystr)
    (prov : option pystr) (st : State) :
  py_or (Some []) (str "default") = str "default"
  ∧ py_or None (str "default") = str "default"
  ∧ _get_history [] st = _get_history (str "default") st
  ∧ (_get_history [] st).1 = Return (str "default")
  ∧ chat env (mkQuery msg (Some []) prov) st
    = chat env (mkQuery msg None prov) st
  ∧ (∀ a st',
       contains_abuse env msg = false →
       chat env (mkQuery msg (Some []) prov) st = (Return a, st') →
       turns_of st' (str "default")
       = turns_of st (str "default") ++ turn_pair msg (answer a)).
Proof.
  split; [reflexivity |]. split; [reflexivity |]. split; [reflexivity |].
  split; [rewrite get_history_eq; reflexivity |]. split; [reflexivity |].
  intros a st' Hab Hchat.
  pose proof (chat_success_histories env (mkQuery msg (Some []) prov)
                st a st' Hab Hchat) as Hh.
  unfold turns_of at 1. rewrite Hh, lookup_insert_eq. reflexivity.
Qed.

Lemma empty_session_id_is_default_witness :
  turns_of (chat env_answering (mkQuery (str "hi") (Some []) None) fresh).2
    (str "default")
  = turns_of fresh (str "default")
    ++ turn_pair (str "hi") (str "In two tranches.").
Proof.
  apply (proj2 (proj2 (proj2 (proj2 (proj2
           (empty_session_id_is_default env_answering (str "hi") None fresh)))))
         (mkAnswer (str "In two tranches."))).
  - vm_compute. reflexivity.
  - vm_compute. reflexivity.
Defined.

(** ** The debug endpoint *)

(** C9: [chat_debug] always returns, never raises.  When the store opens
    and the search returns, the answer is the chunks, each the first 300
    characters at most of a retrieved document; when opening the store
    raises, or the store opens and the search raises, the answer is the
    error payload made of that exception's text and trace, and when it is
    the store that failed no search is made.  The answer is the same
    whatever the session store holds, the store is left as it was, and no
    call is recorded but the one search, so neither gate and no model is
    involved. *)
Theorem chat_debug_never_raises (env : Env) (q : Query) (st : State) :
  ∃ resp st',
    chat_debug env q st = (Return resp, st')
    ∧ match resp with
      | Chunks cs =>
          open_store env = Return tt
          ∧ (∃ docs, search env (message q) = Return docs
                     ∧ cs = map (fun d => take 300 (page_content d)) docs)
          ∧ Forall (fun c => length c ≤ 300) cs
      | ErrorTrace err tr =>
          ∃ e, (open_store env = Raise e
                ∨ (open_store env = Return tt
                   ∧ search env (message q) = Raise e))
               ∧ err = exc_str e ∧ tr = exc_trace e
      end
    ∧ (∀ e, open_store env = Raise e →
         resp = ErrorTrace (exc_str e) (exc_trace e) ∧ st' = st)
    ∧ (∀ e, open_store env = Return tt → search env (message q) = Raise e →
         resp = ErrorTrace (exc_str e) (exc_trace e))
    ∧ _histories st' = _histories st
    ∧ (calls st' = calls st ∨ calls st' = calls st ++ [Retrieved (message q)])
    ∧ ∀ st2, (chat_debug env q st2).1 = Return resp.
Proof.
  assert (Hall : ∀ s, chat_debug env q s = chat_debug_result env q s)
    by apply chat_debug_eq.
  setoid_rewrite Hall. unfold chat_debug_result.
  destruct (open_store env) as [[] | e] eqn:Hopen.
  - destruct (search env (message q)) as [docs | e] eqn:Hs.
    + eexists _, _. split; [reflexivity |]. split.
      * split; [reflexivity |]. split; [by exists docs |].
        apply Forall_forall. intros c Hc. apply list_elem_of_fmap in Hc.
        destruct Hc as [d [-> _]]. rewrite length_take. lia.
      * split; [intros e' [=] |]. split; [intros e' _ [=] |].
        repeat split; try reflexivity. by right.
    + eexists _, _. split; [reflexivity |]. split.
      * exists e. auto.
      * split; [intros e' [=] |].
        split; [intros e' _ [= <-]; reflexivity |].
        repeat split; try reflexivity. by right.
  - eexists _, _. split; [reflexivity |]. split.
    + exists e. auto.
    + split; [intros e' [= <-]; split; reflexivity |].
      split; [intros e' [=] |].
      repeat split; try reflexivity. by left.
Qed.

Lemma chat_debug_never_raises_witness :
  (chat_debug env_no_store (mkQuery (str "hi") None None) fresh).1
  = Return (ErrorTrace (exc_str timeout_error) (exc_trace timeout_error)).
Proof.
  destruct (chat_debug_never_raises env_no_store
              (mkQuery (str "hi") None None) fresh)
    as [resp [st' [Heq [_ [Hstore _]]]]].
  rewrite Heq. cbn [fst]. f_equal.
  apply (Hstore timeout_error). reflexivity.
Defined.

(** ** More on the session store

    X1: [_get_history] is get-or-create.  It returns the bucket named
    [session_id or "default"]; afterwards that bucket exists and holds the
    turns it held before (none for a new one), every other bucket, the
    model cache and the call log are as they were, and asking again
    returns the same bucket and changes nothing. *)
Theorem get_history_get_or_create (sid : pystr) (st : State) :
  let key := str_or sid (str "default") in
  let r := _get_history sid st in
  r.1 = Return key
  ∧ _histories r.2 !! key = Some (turns_of st key)
  ∧ delete key (_histories r.2) = delete key (_histories st)
  ∧ fireworks_cache r.2 = fireworks_cache st
  ∧ calls r.2 = calls st
  ∧ _get_history sid r.2 = (Return key, r.2).
Proof.
  intros key r. subst r. rewrite get_history_eq. fold key.
  unfold turns_of.
  destruct (_histories st !! key) as [ms |] eqn:E; cbn [fst snd].
  - rewrite E. repeat split; try reflexivity.
    rewrite get_history_eq. fold key. by rewrite E.
  - cbn [set_histories _histories fireworks_cache calls].
    rewrite lookup_insert_eq. repeat split; try reflexivity.
    + by rewrite delete_insert_eq.
    + rewrite get_history_eq. fold key.
      cbn [set_histories _histories]. by rewrite lookup_insert_eq.
Qed.

(** What a request can do to the session store. *)
Lemma chat_histories_cases (env : Env) (q : Query) (st : State) :
  let h := _histories st in
  let h' := _histories (chat env q st).2 in
  h' = h ∨ h' = with_default_bucket h
  ∨ ∃ a, h' = <[str "default" :=
                  turns_of st (str "default") ++ turn_pair (message q) a]> h.
Proof.
  intros h h'. subst h h'.
  destruct (contains_abuse env (message q)) eqn:Hab.
  { left. by rewrite (chat_abuse env q st Hab). }
  destruct (chat env q st) as [r st'] eqn:Hchat.
  pose proof (chat_runs env q st r st' Hab Hchat) as Hrun. cbn [snd].
  inversion Hrun as
    [e0 st1 Hpick | llm e0 st1 Hpick Hopen
     | llm e0 st1 st2 Hpick Hopen Hchain
     | llm out st1 st2 Hpick Hopen Hchain]; subst.
  - left. pose proof (pick_llm_frame env (provider q) st) as H.
    by rewrite Hpick in H.
  - left. pose proof (pick_llm_frame env (provider q) st) as H.
    by rewrite Hpick in H.
  - right. left.
    pose proof (pick_llm_frame env (provider q) st) as H.
    rewrite Hpick in H. cbn [snd] in H.
    pose proof (build_chain_frame env llm
      (mkChainInput (message q) (turns_of st (str "default"))) (opened st1))
      as Hbf.
    rewrite Hchain in Hbf. cbn [snd] in Hbf. rewrite Hbf.
    cbn [opened set_histories _histories]. by rewrite H.
  - right. right. exists (answer out).
    apply (chat_run_return_histories env q st _ _ Hrun).
Qed.

Lemma prefix_app_r_self {A} (l k : list A) : l `prefix_of` l ++ k.
Proof. by exists k. Qed.

Lemma chat_appends_only (env : Env) (q : Query) (st : State) (sid : pystr) :
  turns_of st sid `prefix_of` turns_of (chat env q st).2 sid.
Proof.
  unfold turns_of at 2.
  destruct (chat_histories_cases env q st) as [-> | [-> | [a ->]]].
  - reflexivity.
  - rewrite with_default_bucket_lookup. reflexivity.
  - destruct (decide (sid = str "default")) as [-> | Hne].
    + rewrite lookup_insert_eq. apply prefix_app_r_self.
    + rewrite lookup_insert_ne by congruence. reflexivity.
Qed.

Lemma chat_other_buckets (env : Env) (q : Query) (st : State) :
  delete (str "default") (_histories (chat env q st).2)
  = delete (str "default") (_histories st).
Proof.
  destruct (chat_histories_cases env q st) as [-> | [-> | [a ->]]].
  - reflexivity.
  - unfold with_default_bucket.
    destruct (_histories st !! str "default"); [reflexivity |].
    by rewrite delete_insert_eq.
  - by rewrite delete_insert_eq.
Qed.

(** X2: whatever requests are served, and however each one ends, the
    turns a session had are still there, in order, at the front of what it
    has afterwards; and every bucket other than ["default"] is exactly as
    it was. *)
Theorem serve_appends_only (reqs : list (Env * Query)) (st : State)
    (sid : pystr) :
  turns_of st sid `prefix_of` turns_of (serve reqs st).2 sid
  ∧ delete (str "default") (_histories (serve reqs st).2)
    = delete (str "default") (_histories st).
Proof.
  revert st. induction reqs as [| [env q] reqs IH]; intros st.
  - split; reflexivity.
  - cbn [serve].
    pose proof (chat_appends_only env q st sid) as Hp.
    pose proof (chat_other_buckets env q st) as Ho.
    destruct (chat env q st) as [r st1]. cbn [snd] in Hp, Ho.
    destruct (IH st1) as [IH1 IH2].
    destruct (serve reqs st1) as [rs st2]. cbn [snd] in *.
    split; [by etrans | congruence].
Qed.

Lemma serve_records_in_default_witness :
  turns_of (serve [(env_answering, mkQuery (str "hi") (Some (str "s1")) None);
                   (env_no_chunks, mkQuery (str "yo") (Some (str "s2")) None)]
                  fresh).2 (str "default")
  = turns_of fresh (str "default")
    ++ (turn_pair (str "hi") (str "In two tranches.")
        ++ turn_pair (str "yo") SCOPE_MSG ++ []).
Proof.
  refine (proj1 (serve_records_in_default
    [(env_answering, mkQuery (str "hi") (Some (str "s1")) None);
     (env_no_chunks, mkQuery (str "yo") (Some (str "s2")) None)]
    fresh
    [Return (mkAnswer (str "In two tranches.")); Return (mkAnswer SCOPE_MSG)]
    _ _ _ _)).
  - vm_compute. reflexivity.
  - repeat constructor; vm_compute; reflexivity.
  - repeat constructor.
Defined.

(** The request once the model and the retriever are there. *)
Lemma chat_chain_eq (env : Env) (q : Query) (st : State) (llm : ChatModel)
    (st1 : State) :
  contains_abuse env (message q) = false →
  _pick_llm env (provider q) st = (Return llm, st1) →
  open_store env = Return tt →
  chat env q st
  = match build_chain env llm (retriever_invoke env)
            (mkChainInput (message q) (turns_of st (str "default")))
            (opened st1) with
    | (Return out, st2) =>
        (Return (mkAnswer (answer out)),
         set_histories
           (<[str "default" :=
                turns_of st2 (str "default")
                ++ turn_pair (message q) (answer out)]>
              (_histories st2)) st2)
    | (Raise e, st2) => (Raise e, st2)
    end.
Proof.
  intros Hab Hpick Hopen.
  assert (Ht : turns_of st1 (str "default") = turns_of st (str "default")).
  { pose proof (pick_llm_frame env (provider q) st) as H.
    rewrite Hpick in H. cbn [snd] in H. unfold turns_of. by rewrite H. }
  unfold chat. rewrite Hab. unfold bind. rewrite Hpick.
  unfold get_retriever. rewrite Hopen. rewrite rwmh_eq. rewrite Ht.
  by destruct (build_chain env llm (retriever_invoke env) _ (opened st1))
    as [[out | e] st2].
Qed.

(** X4: a request the scope gate refuses is a recorded turn like any
    other.  With the model built, the store open and a blank context
    retrieved, [chat] answers [SCOPE_MSG], makes the one search and no
    generation call, and adds the question and the refusal to the
    ["default"] bucket. *)
Theorem refused_request_is_recorded (env : Env) (q : Query) (st : State)
    (llm : ChatModel) (st1 : State) (docs : list Document) :
  contains_abuse env (message q) = false →
  _pick_llm env (provider q) st = (Return llm, st1) →
  open_store env = Return tt →
  search env (message q) = Return docs →
  strip (_join_docs docs) = [] →
  ∃ st',
    chat env q st = (Return (mkAnswer SCOPE_MSG), st')
    ∧ calls st' = calls st1 ++ [Retrieved (message q)]
    ∧ _histories st'
      = <[str "default" :=
            turns_of st (str "default") ++ turn_pair (message q) SCOPE_MSG]>
          (_histories st).
Proof.
  intros Hab Hpick Hopen Hsearch Hblank.
  pose proof (chat_chain_eq env q st llm st1 Hab Hpick Hopen) as Hchat.
  unfold build_chain, bind, retriever_invoke in Hchat.
  cbn [question history] in Hchat. rewrite Hsearch in Hchat.
  apply refuse_condition_true_iff in Hblank. rewrite Hblank in Hchat.
  unfold ret in Hchat. cbn [answer] in Hchat.
  eexists. split; [exact Hchat |]. split; [reflexivity |].
  exact (chat_success_histories env q st _ _ Hab Hchat).
Qed.

Lemma refused_request_is_recorded_witness :
  ∃ st',
    chat env_no_chunks (mkQuery (str "What's the weather today?") None None)
      fresh
    = (Return (mkAnswer SCOPE_MSG), st')
    ∧ calls st' = [Constructed gemini0]
                  ++ [Retrieved (str "What's the weather today?")]
    ∧ _histories st'
      = <[str "default" :=
            turns_of fresh (str "default")
            ++ turn_pair (str "What's the weather today?") SCOPE_MSG]> ∅.
Proof.
  apply (refused_request_is_recorded env_no_chunks
           (mkQuery (str "What's the weather today?") None None) fresh
           gemini0 (_pick_llm env_no_chunks None fresh).2 []);
    vm_compute; reflexivity.
Defined.

Lemma pick_llm_calls (env : Env) (name : option pystr) (st : State)
    (llm : ChatModel) (st1 : State) :
  _pick_llm env name st = (Return llm, st1) →
  calls st1 = calls st ∨ calls st1 = calls st ++ [Constructed llm].
Proof.
  unfold _pick_llm, llm_fireworks.get_llm, llm_gemini.get_llm, construct.
  case_decide.
  - destruct (fireworks_cache st).
    { intros [= <- <-]. by left. }
    destruct (new_fireworks env); [| done]. intros [= <- <-]. by right.
  - destruct (new_gemini env); [| done]. intros [= <- <-]. by right.
Qed.

(** Resolving a provider makes no search and no generation call. *)
Lemma pick_llm_no_search (env : Env) (name : option pystr) (st : State)
    (llm : ChatModel) (st1 : State) :
  _pick_llm env name st = (Return llm, st1) →
  List.filter is_search_or_generation (calls st1)
  = List.filter is_search_or_generation (calls st).
Proof.
  intros H. destruct (pick_llm_calls env name st llm st1 H) as [-> | ->];
    [reflexivity |].
  rewrite List.filter_app. cbn [List.filter is_search_or_generation].
  by rewrite app_nil_r.
Qed.

(** X5: when the retrieved context is not blank and the model replies
    with [text], [chat] answers [text]; the searches and generation calls
    the request adds to the record are one search and then one generation
    call, whose prompt carries the turns the ["default"] bucket held
    before the request; and the question and [text] are added to that
    bucket. *)
Theorem answered_request_prompt (env : Env) (q : Query) (st : State)
    (llm : ChatModel) (st1 : State) (docs : list Document) (text : pystr) :
  contains_abuse env (message q) = false →
  _pick_llm env (provider q) st = (Return llm, st1) →
  open_store env = Return tt →
  search env (message q) = Return docs →
  strip (_join_docs docs) ≠ [] →
  let p := prompt (message q) (turns_of st (str "default")) (_join_docs docs) in
  generate env (model_provider llm) p = Return text →
  ∃ st',
    chat env q st = (Return (mkAnswer text), st')
    ∧ List.filter is_search_or_generation (calls st')
      = List.filter is_search_or_generation (calls st)
        ++ [Retrieved (message q); Generated llm p]
    ∧ _histories st'
      = <[str "default" :=
            turns_of st (str "default") ++ turn_pair (message q) text]>
          (_histories st).
Proof.
  intros Hab Hpick Hopen Hsearch Hctx p Hgen.
  pose proof (chat_chain_eq env q st llm st1 Hab Hpick Hopen) as Hchat.
  unfold build_chain, bind, retriever_invoke in Hchat.
  cbn [question history] in Hchat. rewrite Hsearch in Hchat.
  destruct (refuse_condition (_join_docs docs)) eqn:E.
  { apply refuse_condition_true_iff in E. contradiction. }
  unfold llm_invoke in Hchat. fold p in Hchat. rewrite Hgen in Hchat.
  unfold ret in Hchat. cbn [answer] in Hchat.
  eexists. split; [exact Hchat |]. split.
  - cbn [set_histories record_call calls opened].
    rewrite !List.filter_app, (pick_llm_no_search env _ st llm st1 Hpick).
    cbn [List.filter is_search_or_generation]. by rewrite <- app_assoc.
  - exact (chat_success_histories env q st _ _ Hab Hchat).
Qed.

Lemma answered_request_prompt_witness :
  ∃ st',
    chat env_answering (mkQuery (str "hi") None None) fresh
    = (Return (mkAnswer (str "In two tranches.")), st')
    ∧ List.filter is_search_or_generation (calls st')
      = List.filter is_search_or_generation (calls fresh)
        ++ [Retrieved (str "hi");
            Generated gemini0
              (prompt (str "hi") (turns_of fresh (str "default"))
                 (_join_docs [loan_chunk]))]
    ∧ _histories st'
      = <[str "default" :=
            turns_of fresh (str "default")
            ++ turn_pair (str "hi") (str "In two tranches.")]> ∅.
Proof.
  apply (answered_request_prompt env_answering
           (mkQuery (str "hi") None None) fresh
           gemini0 (_pick_llm env_answering None fresh).2 [loan_chunk]
           (str "In two tranches.")).
  - vm_compute. reflexivity.
  - vm_compute. reflexivity.
  - vm_compute. reflexivity.
  - vm_compute. reflexivity.
  - vm_compute. discriminate.
  - vm_compute. reflexivity.
Defined.

Lemma fireworks_raise (env : Env) (st : State) e st1 :
  llm_fireworks.get_llm env st = (Raise e, st1) → st1 = st.
Proof.
  unfold llm_fireworks.get_llm. destruct (fireworks_cache st); [done |].
  destruct (construct Fireworks (new_fireworks env) st) as [[m | e'] st'] eqn:E;
    [done |].
  apply construct_raise in E as [_ ->]. by intros [= _ <-].
Qed.

Lemma pick_llm_raise (env : Env) (name : option pystr) (st : State) e st1 :
  _pick_llm env name st = (Raise e, st1) → st1 = st.
Proof.
  unfold _pick_llm. case_decide.
  - apply fireworks_raise.
  - unfold llm_gemini.get_llm. intros Hc. by apply construct_raise in Hc as [_ ->].
Qed.

(** X6: the model and the store come before the search.  For a message
    the abuse check lets through, an exception from provider resolution
    ends the request with that exception and leaves the whole state as it
    was; an exception from opening the store ends it after the model was
    built, with the session store untouched.  In both cases no search and
    no generation call is made, even for a question the scope gate would
    have refused. *)
Theorem failure_before_retrieval (env : Env) (q : Query) (st : State) :
  contains_abuse env (message q) = false →
  (∀ e st1, _pick_llm env (provider q) st = (Raise e, st1) →
     chat env q st = (Raise e, st))
  ∧ (∀ llm st1 e, _pick_llm env (provider q) st = (Return llm, st1) →
       open_store env = Raise e →
       chat env q st = (Raise e, st1)
       ∧ _histories st1 = _histories st
       ∧ (calls st1 = calls st ∨ calls st1 = calls st ++ [Constructed llm])).
Proof.
  intros Hab. split.
  - intros e st1 Hpick.
    pose proof (pick_llm_raise env _ st e st1 Hpick) as ->.
    unfold chat. rewrite Hab. unfold bind. by rewrite Hpick.
  - intros llm st1 e Hpick Hopen. split; [| split].
    + unfold chat. rewrite Hab. unfold bind. rewrite Hpick.
      unfold get_retriever. by rewrite Hopen.
    + pose proof (pick_llm_frame env (provider q) st) as H.
      by rewrite Hpick in H.
    + revert Hpick. unfold _pick_llm, llm_fireworks.get_llm, llm_gemini.get_llm,
        construct.
      case_decide.
      * destruct (fireworks_cache st).
        { intros [= <- <-]. by left. }
        destruct (new_fireworks env); [| done]. intros [= <- <-]. by right.
      * destruct (new_gemini env); [| done]. intros [= <- <-]. by right.
Qed.

Lemma failure_before_retrieval_witness :
  chat env_no_key (mkQuery (str "What's the weather today?") None None) fresh
  = (Raise timeout_error, fresh).
Proof.
  apply (proj1 (failure_before_retrieval env_no_key
           (mkQuery (str "What's the weather today?") None None) fresh
           ltac:(vm_compute; reflexivity)) timeout_error fresh).
  vm_compute. reflexivity.
Defined.

(** X7: the fireworks provider is built once.  For provider names that
    lower-case to ["fireworks"]: once a resolution has returned a model,
    every later one returns that same object and changes nothing; a
    constructor that raises stores nothing, so the exception comes out
    with the state as it was; and the first successful resolution builds
    one fireworks model and stores it. *)
Theorem fireworks_resolved_once (env env' : Env) (name name' : option pystr)
    (st : State) :
  str_lower env (py_or name (str "gemini")) = str "fireworks" →
  str_lower env' (py_or name' (str "gemini")) = str "fireworks" →
  (∀ m st1, _pick_llm env name st = (Return m, st1) →
     _pick_llm env' name' st1 = (Return m, st1))
  ∧ (∀ e, fireworks_cache st = None → new_fireworks env = Raise e →
       _pick_llm env name st = (Raise e, st))
  ∧ (fireworks_cache st = None → new_fireworks env = Return tt →
       ∃ m st1, _pick_llm env name st = (Return m, st1)
                ∧ model_provider m = Fireworks
                ∧ calls st1 = calls st ++ [Constructed m]
                ∧ fireworks_cache st1 = Some m).
Proof.
  intros H1 H2. unfold _pick_llm. rewrite H1, H2.
  rewrite !decide_True by reflexivity.
  split; [| split].
  - intros m st1. apply fireworks_cached.
  - intros e Hc He. unfold llm_fireworks.get_llm, construct. by rewrite Hc, He.
  - intros Hc Hn. unfold llm_fireworks.get_llm. rewrite Hc, Hn.
    rewrite construct_return. eexists _, _. split; [reflexivity |].
    repeat split.
Qed.

Lemma fireworks_resolved_once_witness :
  _pick_llm env_answering (Some (str "fireworks"))
    (_pick_llm env_answering (Some (str "FireWorks")) fresh).2
  = (Return (mkChatModel 0 Fireworks),
     (_pick_llm env_answering (Some (str "FireWorks")) fresh).2).
Proof.
  apply (proj1 (fireworks_resolved_once env_answering env_answering
           (Some (str "FireWorks")) (Some (str "fireworks")) fresh
           ltac:(vm_compute; reflexivity) ltac:(vm_compute; reflexivity))).
  vm_compute. reflexivity.
Defined.

Lemma forallb_join (P : char → bool) (sep : pystr) (parts : list pystr) :
  forallb P sep = true →
  forallb P (join sep parts) = forallb (forallb P) parts.
Proof.
  intros Hsep. induction parts as [| p [| p' rest] IH].
  - reflexivity.
  - simpl. by rewrite andb_true_r.
  - change (join sep (p :: p' :: rest)) with (p ++ sep ++ join sep (p' :: rest)).
    rewrite !forallb_app, Hsep, IH. reflexivity.
Qed.

(** X8: the scope gate refuses exactly when the text of every retrieved
    chunk is blank (empty after [strip]), no chunk at all included: the
    blank-line separators never make a context count as evidence. *)
Theorem refuse_iff_all_chunks_blank (docs : list Document) :
  refuse_condition (_join_docs docs) = true ↔
  Forall (fun d => strip (page_content d) = []) docs.
Proof.
  rewrite refuse_condition_true_iff, strip_nil_iff. unfold _join_docs.
  rewrite forallb_join by reflexivity.
  rewrite forallb_forall, Forall_forall. split.
  - intros H d Hd. apply strip_nil_iff, H, in_map, list_elem_of_In, Hd.
  - intros H s Hs. apply in_map_iff in Hs as [d [<- Hd]].
    apply strip_nil_iff, H, list_elem_of_In, Hd.
Qed.

(** X9: when the store opens and the search returns, [chat_debug]
    answers with one chunk per retrieved document, in retrieval order;
    each chunk is a prefix of its document's text, the whole text when
    that has at most 300 characters and exactly 300 characters
    otherwise. *)
Theorem chat_debug_chunks (env : Env) (q : Query) (st : State)
    (docs : list Document) :
  open_store env = Return tt →
  search env (message q) = Return docs →
  ∃ cs, (chat_debug env q st).1 = Return (Chunks cs)
    ∧ length cs = length docs
    ∧ ∀ i d, docs !! i = Some d →
        ∃ c, cs !! i = Some c
          ∧ c `prefix_of` page_content d
          ∧ (length (page_content d) ≤ 300 → c = page_content d)
          ∧ (300 ≤ length (page_content d) → length c = 300).
Proof.
  intros Hopen Hs. rewrite chat_debug_eq. unfold chat_debug_result.
  rewrite Hopen, Hs. eexists. split; [reflexivity |].
  split; [by rewrite length_map |].
  intros i d Hd. exists (take 300 (page_content d)).
  split; [by rewrite list_lookup_fmap, Hd |].
  split; [apply prefix_take |].
  split; [intros Hl; by apply take_ge | intros Hl; rewrite length_take; lia].
Qed.

Lemma chat_debug_chunks_witness :
  ∃ cs, (chat_debug env_answering (mkQuery (str "hi") None None) fresh).1
        = Return (Chunks cs)
    ∧ length cs = length [loan_chunk]
    ∧ ∀ i d, [loan_chunk] !! i = Some d →
        ∃ c, cs !! i = Some c
          ∧ c `prefix_of` page_content d
          ∧ (length (page_content d) ≤ 300 → c = page_content d)
          ∧ (300 ≤ length (page_content d) → length c = 300).
Proof.
  apply (chat_debug_chunks env_answering (mkQuery (str "hi") None None) fresh
           [loan_chunk]); reflexivity.
Defined.

Lemma lstrip_app_space (pre s : pystr) :
  forallb py_isspace pre = true → lstrip (pre ++ s) = lstrip s.
Proof.
  induction pre as [| c pre IH]; [done |]. cbn [forallb app lstrip].
  intros [Hc Hpre]%andb_true_iff. rewrite Hc. auto.
Qed.

Lemma lstrip_keeps_tail (a b : pystr) (c : char) :
  py_isspace c = false → ∃ u, lstrip (a ++ c :: b) = u ++ c :: b.
Proof.
  intros Hc. induction a as [| x a [u IH]]; cbn [app lstrip].
  - rewrite Hc. by exists [].
  - destruct (py_isspace x); [by exists u | by exists (x :: a)].
Qed.

(** Stripping keeps a run that starts and ends with characters that are
    not whitespace, whatever whitespace comes before it. *)
Lemma strip_keeps_core (pre core post r r' : pystr) (c z : char) :
  core = c :: r → rev core = z :: r' →
  py_isspace c = false → py_isspace z = false →
  forallb py_isspace pre = true →
  ∃ u, strip (pre ++ core ++ post) = core ++ u.
Proof.
  intros Hcore Hrev Hc Hz Hpre. unfold strip, rstrip.
  rewrite lstrip_app_space by exact Hpre.
  assert (Hl : lstrip (core ++ post) = core ++ post).
  { rewrite Hcore. cbn [app lstrip]. by rewrite Hc. }
  rewrite Hl, rev_app_distr, Hrev.
  destruct (lstrip_keeps_tail (rev post) r' z Hz) as [u Hu].
  rewrite Hu, rev_app_distr, <- Hrev, rev_involutive. by exists (rev u).
Qed.

(** ** The client's refusal callout

    X10: the client's [REFUSAL_TEXT] is the backend's [SCOPE_MSG], and the
    client's test [answer.strip().startswith(REFUSAL_TEXT)] holds of every
    answer made of whitespace, then [SCOPE_MSG], then any text; it does not
    hold of the abuse answer. *)
Theorem scope_refusal_is_shown :
  app.REFUSAL_TEXT = SCOPE_MSG
  ∧ (∀ pre post, forallb py_isspace pre = true →
       app.shown_as_refusal (pre ++ SCOPE_MSG ++ post) = true)
  ∧ app.shown_as_refusal ABUSE_MSG = false.
Proof.
  split; [reflexivity |]. split; [| by vm_compute].
  intros pre post Hpre. unfold app.shown_as_refusal.
  change app.REFUSAL_TEXT with SCOPE_MSG.
  assert (Hh : ∃ c r, SCOPE_MSG = c :: r ∧ py_isspace c = false).
  { eexists _, _. split; [vm_compute; reflexivity | reflexivity]. }
  assert (Ht : ∃ z r', rev SCOPE_MSG = z :: r' ∧ py_isspace z = false).
  { eexists _, _. split; [vm_compute; reflexivity | reflexivity]. }
  destruct Hh as [c [r [Hh Hc]]]. destruct Ht as [z [r' [Ht Hz]]].
  revert Hh Ht. generalize SCOPE_MSG. intros core Hh Ht.
  destruct (strip_keeps_core pre core post r r' c z Hh Ht Hc Hz Hpre)
    as [u ->].
  apply starts_with_spec. by exists u.
Qed.

Lemma scope_refusal_is_shown_witness :
  app.shown_as_refusal ([LF] ++ SCOPE_MSG ++ str " Sorry.") = true.
Proof.
  apply (proj1 (proj2 scope_refusal_is_shown) [LF] (str " Sorry.")).
  reflexivity.
Defined.

Lemma py_or_nil (x : option pystr) : py_or x [] = default [] x.
Proof. by destruct x as [[| c s] |]. Qed.

Lemma origins_filter (a b c o : pystr) :
  a ≠ [] → b ≠ [] →
  o ∈ filter (fun o : pystr => o ≠ []) ({[a; b; c]} : gset pystr)
  ↔ o = a ∨ o = b ∨ (o = c ∧ c ≠ []).
Proof.
  intros Ha Hb. rewrite elem_of_filter, !elem_of_union, !elem_of_singleton.
  split.
  - intros [Ho [[-> | ->] | ->]]; auto.
  - intros [-> | [-> | [-> Hc]]]; auto.
Qed.

(** ** Allowed origins and warm-up

    X11: whatever the process environment, the allowed origins are the
    elements of [frontend_origins], without repetition: the two local
    origins, and the stripped value of [FRONTEND_ORIGIN] when that is set
    and not blank.  So the list is never empty and the fallback [["*"]] is
    never what is used. *)
Theorem cors_origins (environ : gmap pystr pystr) :
  main.allow_origins environ = elements (main.frontend_origins environ)
  ∧ NoDup (main.allow_origins environ)
  ∧ ∀ o, o ∈ main.allow_origins environ ↔
      o = str "http://127.0.0.1:8501" ∨ o = str "http://localhost:8501"
      ∨ (o ≠ [] ∧ ∃ v, environ !! str "FRONTEND_ORIGIN" = Some v
                       ∧ o = strip v).
Proof.
  assert (Hmem : ∀ o, o ∈ main.frontend_origins environ ↔
      o = str "http://127.0.0.1:8501" ∨ o = str "http://localhost:8501"
      ∨ (o ≠ [] ∧ ∃ v, environ !! str "FRONTEND_ORIGIN" = Some v
                       ∧ o = strip v)).
  { intros o. unfold main.frontend_origins.
    rewrite origins_filter by (vm_compute; discriminate).
    rewrite py_or_nil. unfold main._env.
    destruct (environ !! str "FRONTEND_ORIGIN") as [v |]; cbn [fmap option_fmap option_map default].
    - split; (intros [? | [? | H]]; [by left | by right; left | right; right]).
      + destruct H as [-> Hne]. split; [done | by exists v].
      + destruct H as [Hne [v' [[= <-] ->]]]. done.
    - split; (intros [? | [? | H]]; [by left | by right; left | exfalso]).
      + by destruct H.
      + by destruct H as [_ [v' [? _]]]. }
  assert (Heq : main.allow_origins environ
                = elements (main.frontend_origins environ)).
  { unfold main.allow_origins.
    destruct (elements (main.frontend_origins environ)) as [| o os] eqn:E;
      [| reflexivity].
    exfalso. apply elements_empty_inv in E.
    assert (Hin : str "http://127.0.0.1:8501" ∈ main.frontend_origins environ)
      by (apply Hmem; by left).
    revert Hin. generalize (str "http://127.0.0.1:8501"). intros x Hin.
    apply (proj1 (elem_of_equiv_empty _) E x Hin). }
  split; [exact Heq |]. rewrite Heq. split; [apply NoDup_elements |].
  intros o. rewrite elem_of_elements. apply Hmem.
Qed.

Lemma warm_retriever_eq (env : Env) (st : State) :
  main._warm_retriever env st = (Return tt, st).
Proof.
  unfold main._warm_retriever, try_except, bind, ret, get_retriever.
  by destruct (open_store env).
Qed.

Lemma warm_gemini (env : Env) (st : State) :
  ∃ st1 built,
    try_except (_ <- llm_gemini.get_llm env ;; ret tt) (fun _ => ret tt) st
    = (Return tt, st1)
    ∧ _histories st1 = _histories st
    ∧ fireworks_cache st1 = fireworks_cache st
    ∧ calls st1 = calls st ++ map Constructed built.
Proof.
  unfold try_except, bind, ret, llm_gemini.get_llm, construct.
  destruct (new_gemini env) as [[] | e].
  - eexists _, [_]. repeat split.
  - exists st, []. repeat split. cbn [map]. by rewrite app_nil_r.
Qed.

Lemma fireworks_cache_hit (env : Env) (st : State) (m : ChatModel) :
  fireworks_cache st = Some m → llm_fireworks.get_llm env st = (Return m, st).
Proof. intros H. unfold llm_fireworks.get_llm. by rewrite H. Qed.

Lemma warm_fireworks (env : Env) (st : State) :
  ∃ st1 built,
    try_except (_ <- llm_fireworks.get_llm env ;; ret tt) (fun _ => ret tt) st
    = (Return tt, st1)
    ∧ _histories st1 = _histories st
    ∧ calls st1 = calls st ++ map Constructed built
    ∧ (new_fireworks env = Return tt → is_Some (fireworks_cache st1)).
Proof.
  unfold try_except, bind, ret, llm_fireworks.get_llm, construct.
  destruct (fireworks_cache st) as [m0 |] eqn:Hcache.
  - exists st, []. repeat split; [cbn [map]; by rewrite app_nil_r |].
    intros _. by rewrite Hcache.
  - destruct (new_fireworks env) as [[] | e].
    + eexists _, [_]. repeat split. intros _. by eexists.
    + exists st, []. repeat split; [cbn [map]; by rewrite app_nil_r | done].
Qed.

Lemma no_search_in_constructions (built : list ChatModel) :
  List.filter is_search_or_generation (map Constructed built) = [].
Proof. induction built as [| m built IH]; [reflexivity | exact IH]. Qed.

(** X12: warm-up always returns [{"status": "warmed"}], whether or not
    opening the store or either constructor raises; it leaves the session
    store as it was and makes no search and no generation call.  When the
    fireworks module was imported and its constructor succeeds, the
    fireworks model is cached afterwards: resolving it again returns the
    cached object and changes nothing. *)
Theorem warmup_never_raises (env : Env) (fireworks_imported : bool)
    (st : State) :
  ∃ st',
    main.manual_warmup env fireworks_imported st = (Return (str "warmed"), st')
    ∧ _histories st' = _histories st
    ∧ List.filter is_search_or_generation (calls st')
      = List.filter is_search_or_generation (calls st)
    ∧ (fireworks_imported = true → new_fireworks env = Return tt →
       ∃ m, ∀ env', llm_fireworks.get_llm env' st' = (Return m, st')).
Proof.
  unfold main.manual_warmup, main._warm_llms. unfold bind at 1.
  rewrite warm_retriever_eq. unfold bind at 1. unfold bind at 1.
  destruct (warm_gemini env st) as [st1 [b1 [-> [Hh1 [Hc1 Hl1]]]]].
  assert (Hf1 : List.filter is_search_or_generation (calls st1)
                = List.filter is_search_or_generation (calls st)).
  { rewrite Hl1, List.filter_app, no_search_in_constructions.
    by rewrite app_nil_r. }
  destruct fireworks_imported.
  - destruct (warm_fireworks env st1) as [st2 [b2 [-> [Hh2 [Hl2 Hf2]]]]].
    exists st2. split; [reflexivity |].
    split; [congruence |]. split.
    + rewrite Hl2, List.filter_app, no_search_in_constructions, app_nil_r.
      exact Hf1.
    + intros _ Hn. destruct (Hf2 Hn) as [m Hm]. exists m.
      intros env'. by apply fireworks_cache_hit.
  - exists st1. unfold ret. split; [reflexivity |].
    split; [exact Hh1 |]. split; [exact Hf1 | discriminate].
Qed.

Lemma warmup_never_raises_witness :
  ∃ m, ∀ env',
    llm_fireworks.get_llm env'
      (main.manual_warmup env_answering true fresh).2
    = (Return m, (main.manual_warmup env_answering true fresh).2).
Proof.
  destruct (warmup_never_raises env_answering true fresh)
    as [st' [Heq [_ [_ H]]]].
  rewrite Heq. cbn [snd]. apply H; reflexivity.
Defined.

Lemma count_chunk_lookup acc c src :
  default 0 (ingest_pgvector.count_chunk acc c !! src)
  = default 0 (acc !! src) + (if decide (ingest_pgvector.source_of c = src) then 1 else 0).
Proof.
  unfold ingest_pgvector.count_chunk. case_decide as H.
  - rewrite H, lookup_insert_eq. reflexivity.
  - rewrite lookup_insert_ne by exact H. lia.
Qed.

Lemma foldl_count_lookup chunks : ∀ acc src,
  default 0 (foldl ingest_pgvector.count_chunk acc chunks !! src)
  = default 0 (acc !! src)
    + length (filter (fun c => ingest_pgvector.source_of c = src) chunks).
Proof.
  induction chunks as [| c chunks IH]; intros acc src; cbn [foldl].
  - cbn. lia.
  - rewrite IH, count_chunk_lookup, filter_cons.
    case_decide; cbn [length]; lia.
Qed.

Lemma foldl_count_none chunks : ∀ acc src,
  foldl ingest_pgvector.count_chunk acc chunks !! src = None
  ↔ acc !! src = None ∧ Forall (fun c => ingest_pgvector.source_of c ≠ src) chunks.
Proof.
  induction chunks as [| c chunks IH]; intros acc src; cbn [foldl].
  - split; [intros H; split; [exact H | constructor] | by intros [H _]].
  - rewrite IH, Forall_cons. unfold ingest_pgvector.count_chunk.
    destruct (decide (ingest_pgvector.source_of c = src)) as [E | E].
    + rewrite E, lookup_insert_eq. split; [by intros [? _] | by intros [_ [? _]]].
    + rewrite lookup_insert_ne by exact E. tauto.
Qed.

Lemma total_insert_fresh (m : gmap pystr nat) k n :
  m !! k = None → total (<[k := n]> m) = n + total m.
Proof.
  intros H. unfold total. apply (map_fold_insert_L (fun _ n acc => n + acc));
    [intros; lia | exact H].
Qed.

Lemma total_count_chunk acc c : total (ingest_pgvector.count_chunk acc c) = S (total acc).
Proof.
  unfold ingest_pgvector.count_chunk. destruct (acc !! ingest_pgvector.source_of c) as [n |] eqn:E.
  - rewrite <- insert_delete_eq.
    rewrite total_insert_fresh by apply lookup_delete_eq.
    rewrite <- (insert_delete_id acc (ingest_pgvector.source_of c) n E) at 2.
    rewrite total_insert_fresh by apply lookup_delete_eq.
    cbn [default id]. lia.
  - rewrite total_insert_fresh by exact E. cbn [default id]. lia.
Qed.

Lemma total_foldl chunks : ∀ acc,
  total (foldl ingest_pgvector.count_chunk acc chunks) = total acc + length chunks.
Proof.
  induction chunks as [| c chunks IH]; intros acc; cbn [foldl length].
  - lia.
  - rewrite IH, total_count_chunk. lia.
Qed.

(** ** The ingestion summary

    X13: the breakdown by source accounts for every chunk: the count kept
    for a source is the number of chunks with that source, the counts add
    up to the number of chunks, and a source has no entry exactly when no
    chunk has it. *)
Theorem by_src_counts (chunks : list Document) :
  (∀ src, default 0 (ingest_pgvector.by_src chunks !! src)
          = length (filter (fun c => ingest_pgvector.source_of c = src) chunks))
  ∧ total (ingest_pgvector.by_src chunks) = length chunks
  ∧ (∀ src, ingest_pgvector.by_src chunks !! src = None
            ↔ Forall (fun c => ingest_pgvector.source_of c ≠ src) chunks).
Proof.
  unfold ingest_pgvector.by_src. split; [| split].
  - intros src. rewrite foldl_count_lookup, lookup_empty. reflexivity.
  - rewrite total_foldl. unfold total. rewrite map_fold_empty. reflexivity.
  - intros src. rewrite foldl_count_none, lookup_empty. tauto.
Qed.

Lemma dict_get_app k (d1 d2 : list (pystr * pystr)) :
  ingest_pgvector.dict_get k (d1 ++ d2)
  = match ingest_pgvector.dict_get k d1 with
    | Some v => Some v
    | None => ingest_pgvector.dict_get k d2
    end.
Proof.
  induction d1 as [| [k' v] d1 IH]; [reflexivity |].
  cbn [app ingest_pgvector.dict_get]. by case_decide.
Qed.

(** X14: giving a loaded document its source keeps a source it already
    has and otherwise sets the file name; the text and every other
    metadata entry stay as they were, and doing it again changes
    nothing. *)
Theorem set_source_keeps_or_names (name : pystr) (d : Document) :
  let d' := ingest_pgvector.set_source name d in
  ingest_pgvector.dict_get (str "source") (metadata d')
  = Some (default name (ingest_pgvector.dict_get (str "source") (metadata d)))
  ∧ page_content d' = page_content d
  ∧ (∀ k v, ingest_pgvector.dict_get k (metadata d) = Some v →
            ingest_pgvector.dict_get k (metadata d') = Some v)
  ∧ ingest_pgvector.set_source name d' = d'.
Proof.
  unfold ingest_pgvector.set_source.
  destruct (ingest_pgvector.dict_get (str "source") (metadata d)) as [s |] eqn:E.
  - cbn zeta. rewrite E. repeat split; auto.
  - cbn zeta. cbn [metadata page_content]. rewrite dict_get_app, E.
    cbn [ingest_pgvector.dict_get]. rewrite decide_True by reflexivity.
    repeat split.
    intros k v Hk. rewrite dict_get_app, Hk. reflexivity.
Qed.

Lemma set_source_keeps_or_names_witness :
  ingest_pgvector.dict_get (str "page")
    (metadata (ingest_pgvector.set_source (str "manual.pdf")
                 (mkDocument (str "text") [(str "page", str "3")])))
  = Some (str "3").
Proof.
  apply (proj1 (proj2 (proj2 (set_source_keeps_or_names (str "manual.pdf")
           (mkDocument (str "text") [(str "page", str "3")]))))).
  reflexivity.
Defined.
